(** * Conveyor: the build pipeline, its cache-warming pull and the s3 log sink

    A shallow embedding of [conveyor.go] (package conveyor) and of the s3
    log writer (package s3).  Go strings are [string]s, an [error] is
    identified with its [Error()] message, [nil] is [None].  Every call to a
    collaborator (docker daemon, GitHub, git and docker subprocesses, the
    temp-dir allocator, s3) is answered by an arbitrary stateful world and
    recorded, with its answer, in a trace. *)

From Stdlib Require Import String Ascii List Bool Arith Lia ZArith.
From Stdlib.Init Require Byte.
Import ListNotations.

Local Open Scope string_scope.
Local Open Scope list_scope.

Notation "a +++ b" := (String.append a b) (at level 60, right associativity).

(** An [error] value, seen through [Error()]. *)
Definition error := string.

(** ** package regexp: the fragment used by [tagNotFoundRegex] *)

Module Regexp.

Inductive re : Type :=
| Void
| Eps
| Class (p : ascii -> bool)
| Cat (r s : re)
| Alt (r s : re)
| Star (r : re).

Fixpoint nullable (r : re) : bool :=
  match r with
  | Void => false
  | Eps => true
  | Class _ => false
  | Cat r s => nullable r && nullable s
  | Alt r s => nullable r || nullable s
  | Star _ => true
  end.

Definition cat (r s : re) : re :=
  match r, s with
  | Void, _ => Void
  | _, Void => Void
  | Eps, _ => s
  | _, _ => Cat r s
  end.

Definition alt (r s : re) : re :=
  match r, s with
  | Void, _ => s
  | _, Void => r
  | _, _ => Alt r s
  end.

Fixpoint deriv (c : ascii) (r : re) : re :=
  match r with
  | Void => Void
  | Eps => Void
  | Class p => if p c then Eps else Void
  | Cat r s =>
      alt (cat (deriv c r) s) (if nullable r then deriv c s else Void)
  | Alt r s => alt (deriv c r) (deriv c s)
  | Star r' => cat (deriv c r') (Star r')
  end.

(** The whole of [s] is in the language of [r]. *)
Fixpoint full_match (r : re) (s : string) : bool :=
  match s with
  | EmptyString => nullable r
  | String c s' => full_match (deriv c r) s'
  end.

Definition any_byte : re := Class (fun _ => true).

(** [Regexp.MatchString]: some substring of [s] matches. *)
Definition MatchString (r : re) (s : string) : bool :=
  full_match (Cat (Star any_byte) (Cat r (Star any_byte))) s.

Fixpoint Lit (s : string) : re :=
  match s with
  | EmptyString => Eps
  | String c s' => Cat (Class (Ascii.eqb c)) (Lit s')
  end.

Definition Plus (r : re) : re := Cat r (Star r).

(** [.] without the s flag: anything but a newline. *)
Definition dot : re := Class (fun c => negb (Ascii.eqb c "010")).

(** [\s] is [[\t\n\f\r ]]; [\S] is its complement. *)
Definition is_space (c : ascii) : bool :=
  Ascii.eqb c "009" || Ascii.eqb c "010" || Ascii.eqb c "012"
  || Ascii.eqb c "013" || Ascii.eqb c " ".

Definition nonspace : re := Class (fun c => negb (is_space c)).

End Regexp.

(** [regexp.MustCompile(`.*Tag (\S+) not found in repository (\S+)`)] *)
Definition tagNotFoundRegex : Regexp.re :=
  Regexp.Cat (Regexp.Star Regexp.dot)
    (Regexp.Cat (Regexp.Lit "Tag ")
       (Regexp.Cat (Regexp.Plus Regexp.nonspace)
          (Regexp.Cat (Regexp.Lit " not found in repository ")
             (Regexp.Plus Regexp.nonspace)))).

Definition tagNotFound (err : error) : bool :=
  Regexp.MatchString tagNotFoundRegex err.

(** The language of a regular expression. *)
Inductive matches : Regexp.re -> string -> Prop :=
| matches_eps : matches Regexp.Eps ""
| matches_class p c : p c = true -> matches (Regexp.Class p) (String c "")
| matches_cat r s u v :
    matches r u -> matches s v -> matches (Regexp.Cat r s) (u +++ v)
| matches_alt_l r s u : matches r u -> matches (Regexp.Alt r s) u
| matches_alt_r r s u : matches s u -> matches (Regexp.Alt r s) u
| matches_star_nil r : matches (Regexp.Star r) ""
| matches_star_app r u v :
    matches r u -> matches (Regexp.Star r) v ->
    matches (Regexp.Star r) (u +++ v).

(** Every byte of [s] satisfies [p]. *)
Fixpoint all_bytes (p : ascii -> bool) (s : string) : bool :=
  match s with
  | EmptyString => true
  | String c s' => p c && all_bytes p s'
  end.

Definition no_space (s : string) : bool :=
  all_bytes (fun c => negb (Regexp.is_space c)) s.

(** ** package strings: [SplitN] with a one-byte separator *)

(** Cut [s] at the first occurrence of [sep] ([strings.Index] and the two
    slices taken around it). *)
Fixpoint cut (sep : ascii) (s : string) : option (string * string) :=
  match s with
  | EmptyString => None
  | String c s' =>
      if Ascii.eqb c sep then Some (EmptyString, s')
      else match cut sep s' with
           | Some (a, b) => Some (String c a, b)
           | None => None
           end
  end.

Fixpoint SplitN (s : string) (sep : ascii) (n : nat) : list string :=
  match n with
  | 0 => []
  | 1 => [s]
  | S n' =>
      match cut sep s with
      | None => [s]
      | Some (a, b) => a :: SplitN b sep n'
      end
  end.

(** [contains sep s]: the byte [sep] occurs in [s]. *)
Fixpoint contains (sep : ascii) (s : string) : bool :=
  match s with
  | EmptyString => false
  | String c s' => Ascii.eqb c sep || contains sep s'
  end.

(** ** package path/filepath (Unix): [Clean] and [Join] *)

Module Filepath.

Definition isSep (c : ascii) : bool := Ascii.eqb c "/".

(** [r == n || isSep(path[r])] for the rest [p] of the path from [r]. *)
Definition end_or_sep (p : string) : bool :=
  match p with
  | EmptyString => true
  | String c _ => isSep c
  end.

Definition starts_dot (p : string) : bool :=
  match p with
  | String "." _ => true
  | _ => false
  end.

Definition tail (p : string) : string :=
  match p with
  | EmptyString => EmptyString
  | String _ p' => p'
  end.

(** The bytes up to the next separator, and what follows. *)
Fixpoint element (p : string) : list ascii * string :=
  match p with
  | EmptyString => ([], EmptyString)
  | String c p' =>
      if isSep c then ([], p)
      else let '(e, rest) := element p' in (c :: e, rest)
  end.

(** The output buffer is kept reversed: [ro]'s head is [out[w-1]] and
    [length ro] is [w].  [drop_elem dotdot d ro] is the loop
    [for out.w > dotdot && !isSep(out[out.w]) { out.w-- }], [d] being
    the byte at index [w]. *)
Fixpoint drop_elem (dotdot : nat) (d : ascii) (ro : list ascii) : list ascii :=
  match ro with
  | [] => []
  | c :: ro' =>
      if (dotdot <? length ro)%nat && negb (isSep d)
      then drop_elem dotdot c ro'
      else ro
  end.

Definition backtrack (dotdot : nat) (ro : list ascii) : list ascii :=
  match ro with
  | [] => []
  | c :: ro' => drop_elem dotdot c ro'
  end.

Fixpoint clean_loop (fuel : nat) (rooted : bool) (p : string)
         (ro : list ascii) (dotdot : nat) : list ascii :=
  match fuel with
  | 0 => ro
  | S fuel' =>
      match p with
      | EmptyString => ro
      | String c p1 =>
          if isSep c then
            clean_loop fuel' rooted p1 ro dotdot
          else if Ascii.eqb c "." && end_or_sep p1 then
            clean_loop fuel' rooted p1 ro dotdot
          else if Ascii.eqb c "." && starts_dot p1 && end_or_sep (tail p1) then
            let p2 := tail p1 in
            if (dotdot <? length ro)%nat then
              clean_loop fuel' rooted p2 (backtrack dotdot ro) dotdot
            else if negb rooted then
              let ro1 := if (0 <? length ro)%nat then "/"%char :: ro else ro in
              let ro2 := "."%char :: "."%char :: ro1 in
              clean_loop fuel' rooted p2 ro2 (length ro2)
            else
              clean_loop fuel' rooted p2 ro dotdot
          else
            let ro1 :=
              if (rooted && negb (length ro =? 1)%nat)
                 || (negb rooted && negb (length ro =? 0)%nat)
              then "/"%char :: ro else ro in
            let '(e, rest) := element p in
            clean_loop fuel' rooted rest (rev e ++ ro1) dotdot
      end
  end.

Definition Clean (path : string) : string :=
  match path with
  | EmptyString => "."
  | String c p1 =>
      let rooted := isSep c in
      let ro :=
        if rooted
        then clean_loop (String.length path) true p1 ["/"%char] 1
        else clean_loop (String.length path) false path [] 0 in
      match ro with
      | [] => "."
      | _ => string_of_list_ascii (rev ro)
      end
  end.

(** [strings.Join(elem, "/")] *)
Fixpoint join_sep (elem : list string) : string :=
  match elem with
  | [] => ""
  | [e] => e
  | e :: rest => e +++ "/" +++ join_sep rest
  end.

(** [filepath.Join]: leading empty elements are ignored, the rest is
    joined and cleaned. *)
Fixpoint Join (elem : list string) : string :=
  match elem with
  | [] => ""
  | e :: rest =>
      if String.eqb e "" then Join rest else Clean (join_sep elem)
  end.

End Filepath.

(** ** Collaborators *)

(** An [io.Writer] is identified by a handle. *)
Definition Writer := nat.

(** [docker.AuthConfiguration] *)
Record AuthConfiguration := {
  Username : string;
  Password : string
}.

(** [docker.PullImageOptions] *)
Record PullImageOptions := {
  pull_Repository : string;
  pull_Tag : string;
  pull_OutputStream : Writer
}.

(** [docker.PushImageOptions] *)
Record PushImageOptions := {
  push_Name : string;
  push_Tag : string;
  push_OutputStream : Writer
}.

(** [docker.TagImageOptions] *)
Record TagImageOptions := {
  tag_Repo : string;
  tag_Tag : string;
  tag_Force : bool
}.

(** [github.RepoStatus], the two fields that are set. *)
Record RepoStatus := {
  State : string;
  status_Context : string
}.

(** [exec.Cmd] *)
Record Cmd := {
  cmd_Name : string;
  cmd_Args : list string;
  cmd_Dir : string;
  cmd_Stdout : Writer;
  cmd_Stderr : Writer
}.

(** [s3.PutObjectInput] *)
Record PutObjectInput := {
  put_Bucket : string;
  put_Key : string;
  put_ACL : string;
  put_Body : list Byte.byte;
  put_ContentLength : Z;
  put_ContentType : string
}.

(** The calls that leave the program. *)
Inductive Call : Type :=
| TempDir (dir prefix : string)
| CreateStatus (owner repo ref : string) (status : RepoStatus)
| Run (cmd : Cmd)
| PullImage (opts : PullImageOptions) (auth : AuthConfiguration)
| InspectImage (name : string)
| PushImage (opts : PushImageOptions) (auth : AuthConfiguration)
| TagImage (name : string) (opts : TagImageOptions)
| PutObject (input : PutObjectInput).

(** What a collaborator answers: a value (the directory of [TempDir];
    unused by the other calls) or an error. *)
Inductive Reply : Type :=
| Ok (out : string)
| Fail (e : error).

Definition err_of (r : Reply) : option error :=
  match r with
  | Ok _ => None
  | Fail e => Some e
  end.

Definition Event : Type := Call * Reply.

(** How a function call ends. *)
Inductive Outcome (A : Type) : Type :=
| Return (a : A)
| Panic (msg : string).
Arguments Return {A} a.
Arguments Panic {A} msg.

(** [fmt.Errorf("<stage>: %v", err)] *)
Definition Errorf (stage : string) (err : error) : error :=
  stage +++ ": " +++ err.

(** [const Context = "container/docker"] *)
Definition Context : string := "container/docker".

(** [a[i]] on a slice, with its bounds check. *)
Definition index (a : list string) (i : nat) : Outcome string :=
  match nth_error a i with
  | Some x => Return x
  | None => Panic "runtime error: index out of range"
  end.

(** [Conveyor]: the docker and github clients are the world. *)
Record Conveyor := {
  BuildDir : string;
  Auth : AuthConfiguration
}.

Record BuildOptions := {
  Repository : string;
  Commit : string;
  Branch : string;
  OutputStream : Writer
}.

(** [Logs]; the s3 client is the world. *)
Record Logs := {
  Bucket : string
}.

(** [writer]: [b] is the content of the [bytes.Buffer]. *)
Record writer := {
  b : list Byte.byte;
  bucket : string;
  name : string
}.

Arguments Errorf : simpl never.
Arguments String.append : simpl never.

(** ** Reading a trace *)

Definition status_of (ev : Event) : option string :=
  match fst ev with
  | CreateStatus _ _ _ s => Some (State s)
  | _ => None
  end.

Fixpoint keep {A B} (f : A -> option B) (l : list A) : list B :=
  match l with
  | [] => []
  | x :: l' =>
      match f x with
      | Some y => y :: keep f l'
      | None => keep f l'
      end
  end.

(** The states reported to GitHub, oldest first. *)
Definition statuses (tr : list Event) : list string := keep status_of tr.

Definition tag_of (ev : Event) : option (string * TagImageOptions) :=
  match fst ev with
  | TagImage image o => Some (image, o)
  | _ => None
  end.

Definition push_of (ev : Event) : option PushImageOptions :=
  match fst ev with
  | PushImage o _ => Some o
  | _ => None
  end.

(** The call carries the overwrite-allowed option ([Force: true]); of the
    calls made, only [TagImage] has such an option. *)
Definition forced (c : Call) : bool :=
  match c with
  | TagImage _ o => tag_Force o
  | _ => false
  end.

Definition tag_calls (tr : list Event) := keep tag_of tr.
Definition push_calls (tr : list Event) := keep push_of tr.

(** A reply that [pullTags] takes for a recoverable miss. *)
Definition is_miss (r : Reply) : bool :=
  match r with
  | Fail e => tagNotFound e
  | Ok _ => false
  end.

(** Every reply of the trace is a miss; the errors of a trace. *)
Definition all_miss (tr : list Event) : bool :=
  forallb (fun ev => is_miss (snd ev)) tr.

Definition errors (tr : list Event) : list (option error) :=
  map (fun ev => err_of (snd ev)) tr.

(** The stage of [Build] a call belongs to. *)
Definition stage_of (c : Call) : option string :=
  match c with
  | Run cmd =>
      if String.eqb (cmd_Name cmd) "git" then Some "checkout"
      else if String.eqb (cmd_Name cmd) "docker" then Some "build"
      else None
  | InspectImage _ => Some "build"
  | PullImage _ _ => Some "pull"
  | TagImage _ _ => Some "tag"
  | PushImage _ _ => Some "push"
  | _ => None
  end.

Definition in_stage (name : string) (ev : Event) : bool :=
  match stage_of (fst ev) with
  | Some s => String.eqb s name
  | None => false
  end.

(** The events of one stage. *)
Definition stage_events (name : string) (tr : list Event) : list Event :=
  filter (in_stage name) tr.

(** A world that answers from a script, one reply per call, and with
    success once the script is used up. *)
Definition Script : Type := list Reply.

Definition play (w : Script) (c : Call) : Reply * Script :=
  match w with
  | [] => (Ok "", [])
  | r :: w' => (r, w')
  end.

Definition conveyor0 : Conveyor :=
  {| BuildDir := "/tmp/builds"; Auth := {| Username := "u"; Password := "p" |} |}.

Definition widgets : BuildOptions :=
  {| Repository := "acme/widgets"; Commit := "abc123"; Branch := "main";
     OutputStream := 1 |}.

(** The [PutObject] call of [writer.Close] for a log name and a body. *)
Definition log_put (l : Logs) (nm : string) (body : list Byte.byte) : Call :=
  PutObject {| put_Bucket := Bucket l;
               put_Key := Filepath.Join ["logs"; nm +++ ".txt"];
               put_ACL := "public-read";
               put_Body := body;
               put_ContentLength := Z.of_nat (length body);
               put_ContentType := "text/plain" |}.

Definition put_key_of (ev : Event) : option string :=
  match fst ev with
  | PutObject i => Some (put_Key i)
  | _ => None
  end.

(** The keys written to the blob store. *)
Definition put_keys (tr : list Event) : list string := keep put_key_of tr.

(** Scripts of answers for runs of [Build] on [widgets]: the first four
    answers are those of [TempDir], the ["pending"] report, [git clone]
    and [git checkout]. *)
Definition miss (t : string) : error :=
  "Tag " +++ t +++ " not found in repository acme/widgets".

Definition checked_out : Script :=
  [Ok "/tmp/builds/abc123-1"; Ok ""; Ok ""; Ok ""].

Definition script_tempdir_fails : Script := [Fail "no space left on device"].

Definition script_all_miss : Script :=
  checked_out ++ [Fail (miss "main"); Fail (miss "latest")].

Definition script_build_fails : Script :=
  checked_out ++ [Ok ""; Fail "exit status 1"].

Definition script_report_fails : Script :=
  checked_out ++ [Ok ""; Ok ""; Ok ""; Ok ""; Ok ""; Ok ""; Ok ""; Ok "";
                  Fail "502 Bad Gateway"].

Definition docker_build : Call :=
  Run {| cmd_Name := "docker";
         cmd_Args := ["build"; "-t"; "acme/widgets"; "."];
         cmd_Dir := "/tmp/builds/abc123-1";
         cmd_Stdout := 1; cmd_Stderr := 1 |}.

Definition logs0 : Logs := {| Bucket := "conveyor-logs" |}.

(** The calls issued by [pullTag], [tag] and [push] for one tag. *)
Definition pull_call (c : Conveyor) (repo : string) (w : Writer) (t : string)
  : Call :=
  PullImage {| pull_Repository := repo; pull_Tag := t;
               pull_OutputStream := w |} (Auth c).

Definition tag_call (image t : string) : Call :=
  TagImage image {| tag_Repo := image; tag_Tag := t; tag_Force := true |}.

Definition push_call (c : Conveyor) (image : string) (w : Writer) (t : string)
  : Call :=
  PushImage {| push_Name := image; push_Tag := t;
               push_OutputStream := w |} (Auth c).

(** The [CreateStatus] call issued for a state. *)
Definition status_call (owner name commit status : string) : Call :=
  CreateStatus owner name commit
    {| State := status; status_Context := "container/docker" |}.

(** A request whose identifier has no ["/"], and a world in which every
    call succeeds. *)
Definition widgets_no_slash : BuildOptions :=
  {| Repository := "widgets"; Commit := "abc123"; Branch := "main";
     OutputStream := 1 |}.

Definition always_ok (w : unit) (c : Call) : Reply * unit := (Ok "", tt).

(** The commands run by [checkout] and [build] for a working directory. *)
Definition clone_cmd (c : Conveyor) (opts : BuildOptions) (dir : string) : Cmd :=
  {| cmd_Name := "git";
     cmd_Args := ["clone"; "--depth=50"; "--branch=" +++ Branch opts;
                  "git://github.com/" +++ Repository opts +++ ".git"; dir];
     cmd_Dir := BuildDir c;
     cmd_Stdout := OutputStream opts; cmd_Stderr := OutputStream opts |}.

Definition checkout_cmd (opts : BuildOptions) (dir : string) : Cmd :=
  {| cmd_Name := "git";
     cmd_Args := ["checkout"; "-qf"; Commit opts];
     cmd_Dir := dir;
     cmd_Stdout := OutputStream opts; cmd_Stderr := OutputStream opts |}.

Definition docker_build_cmd (opts : BuildOptions) (dir : string) : Cmd :=
  {| cmd_Name := "docker";
     cmd_Args := ["build"; "-t"; Repository opts; "."];
     cmd_Dir := dir;
     cmd_Stdout := OutputStream opts; cmd_Stderr := OutputStream opts |}.

(** The two parts of an identifier, as [updateStatus] takes them. *)
Definition owner_name (repo : string) : string * string :=
  match cut "/" repo with
  | Some p => p
  | None => (repo, "")
  end.

(** The directory answered to the first call of a trace. *)
Definition workdir (tr : list Event) : string :=
  match tr with
  | (_, Ok out) :: _ => out
  | _ => ""
  end.

(** Every call [Build] can make, in the order of the source, for a
    working directory [dir] and a terminal state [t]. *)
Definition pipeline (c : Conveyor) (opts : BuildOptions) (dir t : string)
  : list Call :=
  [TempDir (BuildDir c) (Commit opts);
   status_call (fst (owner_name (Repository opts)))
     (snd (owner_name (Repository opts))) (Commit opts) "pending";
   Run (clone_cmd c opts dir);
   Run (checkout_cmd opts dir);
   pull_call c (Repository opts) (OutputStream opts) (Branch opts);
   pull_call c (Repository opts) (OutputStream opts) "latest";
   Run (docker_build_cmd opts dir);
   InspectImage (Repository opts);
   tag_call (Repository opts) (Branch opts);
   tag_call (Repository opts) (Commit opts);
   push_call c (Repository opts) (OutputStream opts) "latest";
   push_call c (Repository opts) (OutputStream opts) (Branch opts);
   push_call c (Repository opts) (OutputStream opts) (Commit opts);
   status_call (fst (owner_name (Repository opts)))
     (snd (owner_name (Repository opts))) (Commit opts) t].

(** [l1] is [l2] with some elements left out. *)
Inductive sublist {A : Type} : list A -> list A -> Prop :=
| sublist_nil l : sublist [] l
| sublist_keep x l1 l2 : sublist l1 l2 -> sublist (x :: l1) (x :: l2)
| sublist_skip x l1 l2 : sublist l1 l2 -> sublist l1 (x :: l2).

Definition is_ok (ev : Event) : bool :=
  match snd ev with
  | Ok _ => true
  | Fail _ => false
  end.

(** The number of calls of a stage that succeeded. *)
Definition ok_count (name : string) (tr : list Event) : nat :=
  length (filter is_ok (stage_events name tr)).





Section Program.

(** The state of everything outside the program, and how it answers. *)
Variable World : Type.
Variable respond : World -> Call -> Reply * World.

(** A computation: from a world to an outcome, the world after, and the
    calls made, oldest first. *)
Record Result (A : Type) : Type := mkResult {
  outcome : Outcome A;
  world : World;
  trace : list Event
}.
Arguments mkResult {A}.
Arguments outcome {A}.
Arguments world {A}.
Arguments trace {A}.

Definition M (A : Type) : Type := World -> Result A.

Definition ret {A} (a : A) : M A :=
  fun w => mkResult (Return a) w [].

Definition panic {A} (msg : string) : M A :=
  fun w => mkResult (Panic msg) w [].

Definition bind {A B} (m : M A) (f : A -> M B) : M B :=
  fun w =>
    match m w with
    | mkResult (Return a) w1 t1 =>
        match f a w1 with
        | mkResult o w2 t2 => mkResult o w2 (t1 ++ t2)
        end
    | mkResult (Panic msg) w1 t1 => mkResult (Panic msg) w1 t1
    end.

Definition lift {A} (o : Outcome A) : M A :=
  fun w => mkResult o w [].

Definition call (c : Call) : M Reply :=
  fun w =>
    let '(r, w') := respond w c in
    mkResult (Return r) w' [(c, r)].

Notation "x <- m ;; k" := (bind m (fun x => k))
  (at level 61, m at next level, right associativity).


(** [newCommand] *)
Definition newCommand (w : Writer) (name : string) (arg : list string) : Cmd :=
  {| cmd_Name := name; cmd_Args := arg; cmd_Dir := "";
     cmd_Stdout := w; cmd_Stderr := w |}.

Definition set_Dir (cmd : Cmd) (dir : string) : Cmd :=
  {| cmd_Name := cmd_Name cmd; cmd_Args := cmd_Args cmd; cmd_Dir := dir;
     cmd_Stdout := cmd_Stdout cmd; cmd_Stderr := cmd_Stderr cmd |}.

(** [updateStatus] *)
Definition updateStatus (c : Conveyor) (repo commit status : string)
  : M (option error) :=
  let context := Context in
  let parts := SplitN repo "/" 2 in
  owner <- lift (index parts 0) ;;
  name <- lift (index parts 1) ;;
  r <- call (CreateStatus owner name commit
               {| State := status; status_Context := context |}) ;;
  ret (err_of r).

(** [checkout] *)
Definition checkout (c : Conveyor) (dir : string) (opts : BuildOptions)
  : M (option error) :=
  let cmd := newCommand (OutputStream opts) "git"
               ["clone"; "--depth=50"; "--branch=" +++ Branch opts;
                "git://github.com/" +++ Repository opts +++ ".git"; dir] in
  r <- call (Run (set_Dir cmd (BuildDir c))) ;;
  match err_of r with
  | Some err => ret (Some err)
  | None =>
      let cmd := newCommand (OutputStream opts) "git"
                   ["checkout"; "-qf"; Commit opts] in
      r <- call (Run (set_Dir cmd dir)) ;;
      ret (err_of r)
  end.

(** [pullTag] *)
Definition pullTag (c : Conveyor) (repo tag : string) (w : Writer)
  : M (option error) :=
  r <- call (PullImage {| pull_Repository := repo; pull_Tag := tag;
                          pull_OutputStream := w |} (Auth c)) ;;
  ret (err_of r).

(** The loop of [pullTags]; [err] is the named result, which the two
    bare [return]s hand back. *)
Fixpoint pullTags_loop (c : Conveyor) (repo : string) (w : Writer)
         (tags : list string) (err : option error) : M (option error) :=
  match tags with
  | [] => ret err
  | t :: tags' =>
      err <- pullTag c repo t w ;;
      match err with
      | Some e =>
          if tagNotFound e
          then pullTags_loop c repo w tags' err
          else ret err
      | None => ret err
      end
  end.

(** [pullTags] *)
Definition pullTags (c : Conveyor) (repo : string) (w : Writer)
           (tags : list string) : M (option error) :=
  pullTags_loop c repo w tags None.

(** [pull] *)
Definition pull (c : Conveyor) (opts : BuildOptions) : M (option error) :=
  pullTags c (Repository opts) (OutputStream opts) [Branch opts; "latest"].

(** [build]; the image that [InspectImage] returns is dropped by the
    only caller, so only the error is kept. *)
Definition build (c : Conveyor) (dir : string) (opts : BuildOptions)
  : M (option error) :=
  let cmd := newCommand (OutputStream opts) "docker"
               ["build"; "-t"; Repository opts; "."] in
  r <- call (Run (set_Dir cmd dir)) ;;
  match err_of r with
  | Some err => ret (Some err)
  | None =>
      r <- call (InspectImage (Repository opts)) ;;
      ret (err_of r)
  end.

(** [push] *)
Fixpoint push (c : Conveyor) (image : string) (w : Writer)
         (tags : list string) : M (option error) :=
  match tags with
  | [] => ret None
  | t :: tags' =>
      r <- call (PushImage {| push_Name := image; push_Tag := t;
                              push_OutputStream := w |} (Auth c)) ;;
      match err_of r with
      | Some err => ret (Some err)
      | None => push c image w tags'
      end
  end.

(** [tag] *)
Fixpoint tag (c : Conveyor) (image : string) (tags : list string)
  : M (option error) :=
  match tags with
  | [] => ret None
  | t :: tags' =>
      r <- call (TagImage image {| tag_Repo := image; tag_Tag := t;
                                   tag_Force := true |}) ;;
      match err_of r with
      | Some err => ret (Some err)
      | None => tag c image tags'
      end
  end.

(** [if err = m; err != nil { return fmt.Errorf("<stage>: %v", err) }] *)
Definition stage (name : string) (m : M (option error))
           (k : M (option error)) : M (option error) :=
  err <- m ;;
  match err with
  | Some e => ret (Some (Errorf name e))
  | None => k
  end.

(** The body of [Build], from [ioutil.TempDir] to [return nil]. *)
Definition Build_body (c : Conveyor) (opts : BuildOptions)
  : M (option error) :=
  r <- call (TempDir (BuildDir c) (Commit opts)) ;;
  match r with
  | Fail e => ret (Some (Errorf "tempdir" e))
  | Ok dir =>
      stage "status" (updateStatus c (Repository opts) (Commit opts) "pending")
      (stage "checkout" (checkout c dir opts)
      (stage "pull" (pull c opts)
      (stage "build" (build c dir opts)
      (let tags := [Branch opts; Commit opts] in
       stage "tag" (tag c (Repository opts) tags)
      (stage "push" (push c (Repository opts) (OutputStream opts)
                       ("latest" :: tags))
      (ret None))))))
  end.

(** The function deferred by [Build]; [err] is the named result when it
    runs.  What [updateStatus] returns is dropped. *)
Definition Build_deferred (c : Conveyor) (opts : BuildOptions)
           (err : option error) : M unit :=
  let status := match err with
                | Some _ => "error"
                | None => "success"
                end in
  _ <- updateStatus c (Repository opts) (Commit opts) status ;;
  ret tt.

(** [Build].  The deferred function runs when the body returns and when
    it panics.  The body can panic only inside the "pending"
    [updateStatus], when the named result [err] still holds the [nil]
    stored by the [TempDir] assignment; a panic of the deferred function
    becomes the panic of [Build]. *)
Definition Build (c : Conveyor) (opts : BuildOptions) : M (option error) :=
  fun w =>
    match Build_body c opts w with
    | mkResult o w1 t1 =>
        let err := match o with
                   | Return e => e
                   | Panic _ => None
                   end in
        match Build_deferred c opts err w1 with
        | mkResult (Return _) w2 t2 => mkResult o w2 (t1 ++ t2)
        | mkResult (Panic msg) w2 t2 => mkResult (Panic msg) w2 (t1 ++ t2)
        end
    end.

(** ** package s3: the log sink *)


(** [Logs.Create] *)
Definition Create (l : Logs) (name : string) : writer * option error :=
  let name := Filepath.Join ["logs"; name +++ ".txt"] in
  ({| b := []; bucket := Bucket l; name := name |}, None).

(** [Logs.Open]; no reader is returned. *)
Definition Open (l : Logs) (name : string) : option unit * option error :=
  (None, Some "s3 logs: read is not implemented yet").

(** [writer.Write]: the buffer grows by [p]; the writer after the call,
    the count and the error of [bytes.Buffer.Write]. *)
Definition Write (l : writer) (p : list Byte.byte)
  : writer * (nat * option error) :=
  ({| b := b l ++ p; bucket := bucket l; name := name l |},
   (length p, None)).

(** [writer.Close] *)
Definition Close (l : writer) : M (option error) :=
  r <- call (PutObject {| put_Bucket := bucket l;
                          put_Key := name l;
                          put_ACL := "public-read";
                          put_Body := b l;
                          put_ContentLength := Z.of_nat (length (b l));
                          put_ContentType := "text/plain" |}) ;;
  ret (err_of r).

(** Successive [Write]s of the chunks [ps] on [l]. *)
Fixpoint Write_all (l : writer) (ps : list (list Byte.byte)) : writer :=
  match ps with
  | [] => l
  | p :: ps' => Write_all (fst (Write l p)) ps'
  end.

(** ** The library models on known inputs *)

Example tagNotFound_docker_message :
  tagNotFound "Tag main not found in repository acme/widgets" = true
  /\ tagNotFound "Error: Tag v1 not found in repository acme/widgets, giving up" = true
  /\ tagNotFound "Tag  not found in repository acme/widgets" = false
  /\ tagNotFound "unauthorized: authentication required" = false.
Proof. vm_compute. repeat split. Qed.

Example SplitN_examples :
  SplitN "acme/widgets" "/" 2 = ["acme"; "widgets"]
  /\ SplitN "a/b/c" "/" 2 = ["a"; "b/c"]
  /\ SplitN "widgets" "/" 2 = ["widgets"]
  /\ SplitN "" "/" 2 = [""].
Proof. repeat split. Qed.

Example Clean_examples :
  map Filepath.Clean
    ["abc//def//ghi"; "abc/./def"; "abc/def/../ghi"; "abc/def/../../../ghi";
     "/../abc"; "abc/"; ""; "../../abc"; "/"; "a/b/../../.."]
  = ["abc/def/ghi"; "abc/def"; "abc/ghi"; "../ghi";
     "/abc"; "abc"; "."; "../../abc"; "/"; ".."].
Proof. vm_compute. reflexivity. Qed.

Example Join_examples :
  map Filepath.Join [["a"; "b"]; ["a"; ""]; [""; "b"]; ["a/"; "b"]; ["a"; "../b"]; [""; ""]]
  = ["a/b"; "a"; "b"; "a/b"; "b"; ""].
Proof. vm_compute. reflexivity. Qed.

(** ** Strings *)

Lemma cut_none (sep : ascii) (s : string) :
  contains sep s = false -> cut sep s = None.
Proof.
  induction s as [|c s IH]; simpl; intros H; [reflexivity|].
  apply orb_false_iff in H as [Hc Hs].
  rewrite Hc, (IH Hs). reflexivity.
Qed.

Lemma cut_append (sep : ascii) (a y : string) :
  contains sep a = false ->
  cut sep (a +++ String sep y) = Some (a, y).
Proof.
  induction a as [|c a IH]; simpl; intros H.
  - rewrite Ascii.eqb_refl. reflexivity.
  - apply orb_false_iff in H as [Hc Ha].
    change (String c a +++ String sep y) with (String c (a +++ String sep y)).
    simpl. rewrite Hc, (IH Ha). reflexivity.
Qed.

Lemma cut_some (sep : ascii) (s x y : string) :
  cut sep s = Some (x, y) ->
  s = x +++ String sep y /\ contains sep x = false.
Proof.
  revert x y. induction s as [|c s IH]; simpl; intros x y H; [discriminate|].
  destruct (Ascii.eqb c sep) eqn:Hc.
  - injection H as Hx Hy. subst x y.
    apply Ascii.eqb_eq in Hc. subst c. split; reflexivity.
  - destruct (cut sep s) as [[x' y']|]; [|discriminate].
    injection H as Hx Hy. subst x y.
    destruct (IH x' y' eq_refl) as [-> Ha].
    split; [reflexivity|]. simpl. rewrite Hc, Ha. reflexivity.
Qed.

Lemma contains_cut (sep : ascii) (s : string) :
  contains sep s = true -> exists x y, cut sep s = Some (x, y).
Proof.
  induction s as [|c s IH]; simpl; intros H; [discriminate|].
  destruct (Ascii.eqb c sep); [eauto|].
  destruct (IH H) as (x & y & ->). eauto.
Qed.

(** ** [updateStatus] *)

Lemma updateStatus_cut c repo commit status w a b0 :
  cut "/" repo = Some (a, b0) ->
  updateStatus c repo commit status w =
  mkResult (Return (err_of (fst (respond w (status_call a b0 commit status)))))
           (snd (respond w (status_call a b0 commit status)))
           [(status_call a b0 commit status,
             fst (respond w (status_call a b0 commit status)))].
Proof.
  intros H. unfold updateStatus, bind, lift, call, ret, status_call.
  simpl. rewrite H. simpl.
  destruct (respond w _) as [r w']. reflexivity.
Qed.

Lemma updateStatus_nocut c repo commit status w :
  cut "/" repo = None ->
  updateStatus c repo commit status w =
  mkResult (Panic "runtime error: index out of range") w [].
Proof.
  intros H. unfold updateStatus, bind, lift, call, ret.
  simpl. rewrite H. reflexivity.
Qed.

(** ** [pullTags] *)

Lemma pullTags_loop_cons c repo wr t ts err0 w :
  pullTags_loop c repo wr (t :: ts) err0 w =
  let rep := fst (respond w (pull_call c repo wr t)) in
  let w1 := snd (respond w (pull_call c repo wr t)) in
  if is_miss rep then
    let r := pullTags_loop c repo wr ts (err_of rep) w1 in
    mkResult (outcome r) (world r) ((pull_call c repo wr t, rep) :: trace r)
  else mkResult (Return (err_of rep)) w1 [(pull_call c repo wr t, rep)].
Proof.
  unfold pull_call. simpl. unfold bind, pullTag, bind, call, ret. simpl.
  destruct (respond w _) as [[out|e] w1]; simpl; [reflexivity|].
  destruct (tagNotFound e); [|reflexivity].
  destruct (pullTags_loop c repo wr ts (Some e) w1) as [o w2 t2].
  reflexivity.
Qed.

Lemma last_indep {A} (l : list A) (d d' : A) :
  l <> [] -> last l d = last l d'.
Proof.
  induction l as [|x [|y l] IH]; intros H; [contradiction|reflexivity|].
  change (last (y :: l) d = last (y :: l) d'). apply IH. discriminate.
Qed.

Lemma pullTags_loop_shape c repo wr tags :
  forall err0 w,
    let r := pullTags_loop c repo wr tags err0 w in
    map fst (trace r) = map (pull_call c repo wr) (firstn (length (trace r)) tags)
    /\ (forall i ev, nth_error (trace r) i = Some ev ->
                     is_miss (snd ev) = false ->
                     length (trace r) = S i /\ outcome r = Return (err_of (snd ev)))
    /\ (all_miss (trace r) = true ->
        length (trace r) = length tags
        /\ outcome r = Return (last (errors (trace r)) err0)).
Proof.
  induction tags as [|t ts IH]; intros err0 w.
  - simpl. split; [reflexivity|]. split.
    + intros [|i] ev H; discriminate.
    + intros _. split; reflexivity.
  - cbv zeta. rewrite pullTags_loop_cons. cbv zeta.
    destruct (respond w (pull_call c repo wr t)) as [rep w1]. simpl fst. simpl snd.
    destruct (is_miss rep) eqn:Hm.
    + specialize (IH (err_of rep) w1). cbv zeta in IH.
      destruct IH as (Hcalls & Hstop & Hall). simpl.
      split; [f_equal; exact Hcalls|]. split.
      * intros [|i] ev H Hev; simpl in H.
        -- injection H as H. subst ev. simpl in Hev. congruence.
        -- destruct (Hstop i ev H Hev) as [-> ->]. split; reflexivity.
      * unfold all_miss. simpl. rewrite Hm. simpl. intros Ha.
        destruct (Hall Ha) as [Hlen Hout]. split; [f_equal; exact Hlen|].
        rewrite Hout. f_equal.
        unfold errors.
        destruct (trace (pullTags_loop c repo wr ts (err_of rep) w1)) as [|e l];
          [reflexivity|].
        change (last (err_of rep :: map (fun ev => err_of (snd ev)) (e :: l)) err0)
          with (last (map (fun ev => err_of (snd ev)) (e :: l)) err0).
        apply last_indep. discriminate.
    + simpl. split; [reflexivity|]. split.
      * intros [|i] ev H Hev; simpl in H.
        -- injection H as H. subst ev. split; reflexivity.
        -- destruct i; discriminate.
      * unfold all_miss. simpl. rewrite Hm. discriminate.
Qed.

Lemma pullTags_loop_last c repo wr tags :
  forall err0 w,
    outcome (pullTags_loop c repo wr tags err0 w)
    = Return (last (errors (trace (pullTags_loop c repo wr tags err0 w))) err0)
    /\ length (trace (pullTags_loop c repo wr tags err0 w)) <= length tags
    /\ (tags <> [] -> trace (pullTags_loop c repo wr tags err0 w) <> []).
Proof.
  induction tags as [|t ts IH]; intros err0 w.
  - simpl. split; [reflexivity|]. split; [lia|]. intros H. contradiction.
  - rewrite pullTags_loop_cons. cbv zeta.
    destruct (respond w (pull_call c repo wr t)) as [rep w1]. simpl fst. simpl snd.
    destruct (is_miss rep) eqn:Hm.
    + destruct (IH (err_of rep) w1) as (Hout & Hlen & _). simpl.
      split; [|split; [lia|discriminate]].
      rewrite Hout. f_equal. unfold errors.
      destruct (trace (pullTags_loop c repo wr ts (err_of rep) w1)) as [|ev l];
        [reflexivity|].
      change (last (err_of rep :: map (fun ev => err_of (snd ev)) (ev :: l)) err0)
        with (last (map (fun ev => err_of (snd ev)) (ev :: l)) err0).
      apply last_indep. discriminate.
    + simpl. split; [reflexivity|]. split; [lia|discriminate].
Qed.

Lemma last_error_nil (tr : list Event) :
  tr <> [] ->
  last (errors tr) None = None ->
  exists i call out, nth_error tr i = Some (call, Ok out).
Proof.
  induction tr as [|ev tr IH]; intros Hne Hlast; [contradiction|].
  destruct tr as [|ev' tr].
  - destruct ev as [call [out|e]]; simpl in Hlast; [|discriminate].
    exists 0, call, out. reflexivity.
  - destruct IH as (i & call & out & Hi); [discriminate|exact Hlast|].
    exists (S i), call, out. exact Hi.
Qed.

Lemma cut_none_inv (sep : ascii) (s : string) :
  cut sep s = None -> contains sep s = false.
Proof.
  induction s as [|c s IH]; simpl; intros H; [reflexivity|].
  destruct (Ascii.eqb c sep); [discriminate|].
  destruct (cut sep s) as [[x y]|]; [discriminate|].
  apply IH. reflexivity.
Qed.

Lemma calls_of_trace {A} (f : A -> Call) (l : list A) (tr : list Event) ev :
  map fst tr = map f l -> In ev tr -> exists a, fst ev = f a.
Proof.
  intros Hmap Hin. apply (in_map fst) in Hin. rewrite Hmap in Hin.
  apply in_map_iff in Hin as (a & Ha & _). exists a. symmetry. exact Ha.
Qed.

(** ** [tag] and [push] *)

Lemma tag_shape c image tags :
  forall w,
    let r := tag c image tags w in
    map fst (trace r) = map (tag_call image) (firstn (length (trace r)) tags)
    /\ (forall i call e, nth_error (trace r) i = Some (call, Fail e) ->
                         length (trace r) = S i /\ outcome r = Return (Some e))
    /\ ((forall ev, In ev (trace r) -> err_of (snd ev) = None) ->
        length (trace r) = length tags /\ outcome r = Return None).
Proof.
  induction tags as [|t ts IH]; intros w.
  - simpl. split; [reflexivity|]. split.
    + intros [|i] call e H; discriminate.
    + intros _. split; reflexivity.
  - cbv zeta. simpl. unfold bind, call. fold (tag_call image t).
    destruct (respond w (tag_call image t)) as [[out|e0] w1]; simpl.
    + specialize (IH w1). cbv zeta in IH.
      destruct (tag c image ts w1) as [o w2 t2]. simpl in *.
      destruct IH as (Hcalls & Hstop & Hall).
      split; [f_equal; exact Hcalls|]. split.
      * intros [|i] call e H; simpl in H; [discriminate|].
        destruct (Hstop i call e H) as [-> ->]. split; reflexivity.
      * intros Hok. destruct Hall as [Hlen Hout].
        -- intros ev Hev. apply Hok. right. exact Hev.
        -- split; [f_equal; exact Hlen|exact Hout].
    + split; [reflexivity|]. split.
      * intros [|i] call e H; simpl in H.
        -- injection H as _ He. subst e0. split; reflexivity.
        -- destruct i; discriminate.
      * intros Hok. specialize (Hok _ (or_introl eq_refl)). discriminate.
Qed.

Lemma push_shape c image wr tags :
  forall w,
    let r := push c image wr tags w in
    map fst (trace r) = map (push_call c image wr) (firstn (length (trace r)) tags)
    /\ (forall i call e, nth_error (trace r) i = Some (call, Fail e) ->
                         length (trace r) = S i /\ outcome r = Return (Some e))
    /\ ((forall ev, In ev (trace r) -> err_of (snd ev) = None) ->
        length (trace r) = length tags /\ outcome r = Return None).
Proof.
  induction tags as [|t ts IH]; intros w.
  - simpl. split; [reflexivity|]. split.
    + intros [|i] call e H; discriminate.
    + intros _. split; reflexivity.
  - cbv zeta. simpl. unfold bind, call. fold (push_call c image wr t).
    destruct (respond w (push_call c image wr t)) as [[out|e0] w1]; simpl.
    + specialize (IH w1). cbv zeta in IH.
      destruct (push c image wr ts w1) as [o w2 t2]. simpl in *.
      destruct IH as (Hcalls & Hstop & Hall).
      split; [f_equal; exact Hcalls|]. split.
      * intros [|i] call e H; simpl in H; [discriminate|].
        destruct (Hstop i call e H) as [-> ->]. split; reflexivity.
      * intros Hok. destruct Hall as [Hlen Hout].
        -- intros ev Hev. apply Hok. right. exact Hev.
        -- split; [f_equal; exact Hlen|exact Hout].
    + split; [reflexivity|]. split.
      * intros [|i] call e H; simpl in H.
        -- injection H as _ He. subst e0. split; reflexivity.
        -- destruct i; discriminate.
      * intros Hok. specialize (Hok _ (or_introl eq_refl)). discriminate.
Qed.

(** ** [Build] *)

(** Case analysis on every answer of the world along a run of [Build]. *)
Ltac unfold_build :=
  cbv beta iota zeta delta
    [Build Build_body Build_deferred stage updateStatus checkout pull
     pullTags pullTags_loop pullTag build tag push bind lift call ret
     index SplitN nth_error app err_of].

Ltac answer :=
  match goal with
  | |- context [cut ?s ?r] => destruct (cut s r) as [[? ?]|] eqn:?
  | |- context [respond ?w ?c] => destruct (respond w c) as [[?|?] ?] eqn:?
  | |- context [tagNotFound ?e] => destruct (tagNotFound e) eqn:?
  end.

Ltac run_build := unfold_build; repeat (answer; unfold_build); simpl.

Ltac in_trace H :=
  simpl in H;
  repeat match type of H with
         | _ \/ _ => destruct H as [H|H]
         | False => contradiction
         | (_, _) = (_, _) => injection H as ? ?; subst
         end.

(** ** The claims on [pullTags] *)

(** C1, as amended.  When every candidate pull is a tag-not-found miss
    and there is at least one candidate, [pullTags] has tried every
    candidate in order and returns the error of the last one, which is a
    tag-not-found error and not [nil]; [Build] then has pulled the branch
    tag and ["latest"], returns the error of the ["latest"] pull behind
    the text ["pull: "], reports ["error"] and never reaches the build
    stage.  [pullTags] returns [nil] only when the candidate list is empty
    or one of its pulls succeeded. *)
Theorem C1_all_miss_returns_last_error :
  (forall c repo wr tags w,
      tags <> [] ->
      all_miss (trace (pullTags c repo wr tags w)) = true ->
      map fst (trace (pullTags c repo wr tags w))
      = map (pull_call c repo wr) tags
      /\ exists e,
          last (errors (trace (pullTags c repo wr tags w))) None = Some e
          /\ tagNotFound e = true
          /\ outcome (pullTags c repo wr tags w) = Return (Some e))
  /\ (forall c opts w,
         stage_events "pull" (trace (Build c opts w)) <> [] ->
         all_miss (stage_events "pull" (trace (Build c opts w))) = true ->
         map fst (stage_events "pull" (trace (Build c opts w)))
         = [pull_call c (Repository opts) (OutputStream opts) (Branch opts);
            pull_call c (Repository opts) (OutputStream opts) "latest"]
         /\ stage_events "build" (trace (Build c opts w)) = []
         /\ statuses (trace (Build c opts w)) = ["pending"; "error"]
         /\ exists e,
             last (errors (stage_events "pull" (trace (Build c opts w)))) None
             = Some e
             /\ tagNotFound e = true
             /\ outcome (Build c opts w) = Return (Some ("pull: " +++ e)))
  /\ (forall c repo wr tags w,
         outcome (pullTags c repo wr tags w) = Return None ->
         tags = []
         \/ exists i call out,
             nth_error (trace (pullTags c repo wr tags w)) i
             = Some (call, Ok out)).
Proof.
  split; [|split].
  - intros c repo wr tags w Hne Hall. unfold pullTags in *.
    destruct (pullTags_loop_shape c repo wr tags None w) as (Hcalls & _ & Hmiss).
    destruct (Hmiss Hall) as [Hlen Hout]. split.
    + rewrite Hcalls, Hlen, firstn_all. reflexivity.
    + set (tr := trace (pullTags_loop c repo wr tags None w)) in *.
      assert (Htr : tr <> []).
      { intros E. rewrite E in Hlen. destruct tags; [contradiction|discriminate]. }
      clearbody tr. clear Hcalls Hmiss Hlen.
      assert (Hlast : exists e, last (errors tr) None = Some e /\ tagNotFound e = true).
      { clear Hout. induction tr as [|ev tr IH]; [contradiction|].
        unfold all_miss in Hall. simpl in Hall.
        apply andb_true_iff in Hall as [Hev Hall].
        destruct tr as [|ev' tr].
        - destruct ev as [call [out|e]]; simpl in *; [discriminate|eauto].
        - destruct (IH Hall) as (e & He & Hnf); [discriminate|].
          exists e. split; [|exact Hnf]. exact He. }
      destruct Hlast as (e & He & Hnf). exists e.
      rewrite Hout, He. auto.
  - intros c opts w. run_build.
    all: intros Hne Hall.
    all: try contradiction.
    all: try discriminate.
    all: unfold all_miss in Hall; simpl in Hall.
    all: repeat match goal with
                | Hm : tagNotFound _ = _ |- _ => rewrite Hm in Hall
                end.
    all: try discriminate.
    all: split; [reflexivity|]; split; [reflexivity|]; split; [reflexivity|].
    all: eexists; split; [reflexivity|]; split; [assumption|reflexivity].
  - intros c repo wr tags w Hout. unfold pullTags in *.
    destruct (pullTags_loop_last c repo wr tags None w) as (Hlast & _ & Hne).
    destruct tags as [|t ts]; [left; reflexivity|right].
    rewrite Hlast in Hout. injection Hout as Hout.
    apply last_error_nil; [|exact Hout].
    apply Hne. discriminate.
Qed.

(** C4.  A candidate pull that fails with an error that is not a
    tag-not-found miss ends [pullTags]: that error is returned, the failing
    pull is the last one, and only the candidates up to it were tried. *)
Theorem C4_fatal_pull_stops c repo wr tags w i call e :
  nth_error (trace (pullTags c repo wr tags w)) i = Some (call, Fail e) ->
  tagNotFound e = false ->
  outcome (pullTags c repo wr tags w) = Return (Some e)
  /\ length (trace (pullTags c repo wr tags w)) = S i
  /\ map fst (trace (pullTags c repo wr tags w))
     = map (pull_call c repo wr) (firstn (S i) tags).
Proof.
  intros Hnth Hnf. unfold pullTags in *.
  destruct (pullTags_loop_shape c repo wr tags None w) as (Hcalls & Hstop & _).
  destruct (Hstop i (call, Fail e) Hnth Hnf) as [Hlen Hout].
  rewrite Hlen in Hcalls. auto.
Qed.

(** C5.  [pullTags] pulls the candidates in the order given, one pull
    per position of the list; the first pull that succeeds is the last one
    and [nil] is returned.  For [pull]: when the branch tag is a miss and
    ["latest"] is pulled with success, exactly these two pulls are made,
    in this order, and [nil] is returned. *)
Theorem C5_pull_order_first_success :
  (forall c repo wr tags w,
      map fst (trace (pullTags c repo wr tags w))
      = map (pull_call c repo wr)
          (firstn (length (trace (pullTags c repo wr tags w))) tags))
  /\ (forall c repo wr tags w i call out,
         nth_error (trace (pullTags c repo wr tags w)) i = Some (call, Ok out) ->
         length (trace (pullTags c repo wr tags w)) = S i
         /\ outcome (pullTags c repo wr tags w) = Return None)
  /\ (forall c opts w e w1 out w2,
         respond w (pull_call c (Repository opts) (OutputStream opts) (Branch opts))
         = (Fail e, w1) ->
         tagNotFound e = true ->
         respond w1 (pull_call c (Repository opts) (OutputStream opts) "latest")
         = (Ok out, w2) ->
         pull c opts w
         = mkResult (Return None) w2
             [(pull_call c (Repository opts) (OutputStream opts) (Branch opts), Fail e);
              (pull_call c (Repository opts) (OutputStream opts) "latest", Ok out)]).
Proof.
  split; [|split].
  - intros c repo wr tags w. unfold pullTags.
    apply (pullTags_loop_shape c repo wr tags None w).
  - intros c repo wr tags w i call out Hnth. unfold pullTags in *.
    destruct (pullTags_loop_shape c repo wr tags None w) as (_ & Hstop & _).
    apply (Hstop i (call, Ok out) Hnth eq_refl).
  - intros c opts w e w1 out w2 H1 Hnf H2.
    unfold pull, pullTags. rewrite !pullTags_loop_cons. cbv zeta.
    rewrite H1. simpl fst. simpl snd. simpl is_miss. rewrite Hnf.
    rewrite !pullTags_loop_cons. cbv zeta.
    rewrite H2. reflexivity.
Qed.

(** ** The claims on [tag], [push] and [Build] *)

(** C2, as amended.  For a repository identifier that contains a ["/"],
    every run of [Build] ends with one terminal report, its last call:
    ["success"] when [Build] returns [nil], ["error"] when it returns an
    error.  When the working directory was allocated, the reports are
    exactly ["pending"] and then the terminal one; when the allocation
    fails, the only report is ["error"] and no ["pending"] is sent. *)
Theorem C2_terminal_status c opts w :
  contains "/" (Repository opts) = true ->
  exists t rep0 rest,
    ((t = "success" /\ outcome (Build c opts w) = Return None)
     \/ (t = "error" /\ exists e, outcome (Build c opts w) = Return (Some e)))
    /\ last (map status_of (trace (Build c opts w))) None = Some t
    /\ trace (Build c opts w)
       = (TempDir (BuildDir c) (Commit opts), rep0) :: rest
    /\ match rep0 with
       | Ok _ => statuses (trace (Build c opts w)) = ["pending"; t]
       | Fail _ => t = "error" /\ statuses (trace (Build c opts w)) = [t]
       end.
Proof.
  intros Hc. destruct (contains_cut _ _ Hc) as (o & n & Hcut).
  run_build.
  all: try congruence.
  all: do 3 eexists.
  all: refine (conj _ (conj eq_refl (conj eq_refl _))).
  all: simpl.
  all: first [ reflexivity
             | split; reflexivity
             | left; split; reflexivity
             | right; split; [reflexivity | eexists; reflexivity] ].
Qed.

(** C3, as amended.  When [Build] returns [nil], [TagImage] was called
    for the branch and then the commit, and [PushImage] for ["latest"],
    the branch and the commit, in this order, and for nothing else.
    [tag] and [push] issue one call per tag, in the order given; every
    call of [tag] has [Force] set, while no call of [push] carries such an
    option; the first call that fails is the last call made and its error
    is returned, nothing being issued for the tags already done; without
    a failure every tag is done and [nil] is returned. *)
Theorem C3_tag_and_push :
  (forall c opts w,
      outcome (Build c opts w) = Return None ->
      map fst (stage_events "tag" (trace (Build c opts w)))
      = [tag_call (Repository opts) (Branch opts);
         tag_call (Repository opts) (Commit opts)]
      /\ map fst (stage_events "push" (trace (Build c opts w)))
         = map (push_call c (Repository opts) (OutputStream opts))
             ["latest"; Branch opts; Commit opts])
  /\ (forall c image tags w,
         map fst (trace (tag c image tags w))
         = map (tag_call image) (firstn (length (trace (tag c image tags w))) tags)
         /\ (forall ev, In ev (trace (tag c image tags w)) ->
                        forced (fst ev) = true)
         /\ (forall i call e,
                nth_error (trace (tag c image tags w)) i = Some (call, Fail e) ->
                length (trace (tag c image tags w)) = S i
                /\ outcome (tag c image tags w) = Return (Some e))
         /\ ((forall ev, In ev (trace (tag c image tags w)) -> err_of (snd ev) = None) ->
             length (trace (tag c image tags w)) = length tags
             /\ outcome (tag c image tags w) = Return None))
  /\ (forall c image wr tags w,
         map fst (trace (push c image wr tags w))
         = map (push_call c image wr)
             (firstn (length (trace (push c image wr tags w))) tags)
         /\ (forall ev, In ev (trace (push c image wr tags w)) ->
                        forced (fst ev) = false)
         /\ (forall i call e,
                nth_error (trace (push c image wr tags w)) i = Some (call, Fail e) ->
                length (trace (push c image wr tags w)) = S i
                /\ outcome (push c image wr tags w) = Return (Some e))
         /\ ((forall ev, In ev (trace (push c image wr tags w)) -> err_of (snd ev) = None) ->
             length (trace (push c image wr tags w)) = length tags
             /\ outcome (push c image wr tags w) = Return None)).
Proof.
  split; [|split].
  - intros c opts w. run_build.
    all: intros Hout; try discriminate.
    all: split; reflexivity.
  - intros c image tags w.
    destruct (tag_shape c image tags w) as (Hcalls & Hstop & Hall).
    split; [exact Hcalls|]. split; [|split; [exact Hstop|exact Hall]].
    intros ev Hin.
    destruct (calls_of_trace _ _ _ ev Hcalls Hin) as (t & ->). reflexivity.
  - intros c image wr tags w.
    destruct (push_shape c image wr tags w) as (Hcalls & Hstop & Hall).
    split; [exact Hcalls|]. split; [|split; [exact Hstop|exact Hall]].
    intros ev Hin.
    destruct (calls_of_trace _ _ _ ev Hcalls Hin) as (t & ->). reflexivity.
Qed.

(** C6.  When a call of the build stage (the [docker build] command or
    [InspectImage]) fails, the reports are ["pending"] and then
    ["error"], and neither [TagImage] nor [PushImage] is called. *)
Theorem C6_build_failure c opts w call e :
  In (call, Fail e) (trace (Build c opts w)) ->
  stage_of call = Some "build" ->
  statuses (trace (Build c opts w)) = ["pending"; "error"]
  /\ tag_calls (trace (Build c opts w)) = []
  /\ push_calls (trace (Build c opts w)) = [].
Proof.
  revert call e. run_build.
  all: intros call0 err0 Hin Hst.
  all: in_trace Hin.
  all: try discriminate.
  all: repeat split; reflexivity.
Qed.

(** C7.  When a call of the checkout, pull, build, tag or push stage
    fails (for a pull: with an error that is not a tag-not-found miss),
    [Build] returns the error whose message is the name of the stage, a
    colon, a space and the message of the failure. *)
Theorem C7_stage_failure_wrapped c opts w call e s :
  In (call, Fail e) (trace (Build c opts w)) ->
  stage_of call = Some s ->
  (s = "pull" -> tagNotFound e = false) ->
  outcome (Build c opts w) = Return (Some (s +++ ": " +++ e)).
Proof.
  revert call e s. run_build.
  all: intros call0 err0 stg Hin Hst Hpull.
  all: in_trace Hin.
  all: try discriminate.
  all: simpl in Hst; injection Hst as Hs; subst stg.
  all: try reflexivity.
  all: specialize (Hpull eq_refl); congruence.
Qed.

(** C8.  [updateStatus] on an identifier [pre/post], [pre] without
    ["/"], makes the single call [CreateStatus(pre, post, commit, ...)]
    with the state given and the context ["container/docker"], and returns
    its error.  On an identifier without ["/"] it panics on [parts[1]],
    before any call: it is not total. *)
Theorem C8_updateStatus_split :
  (forall c pre post commit status w,
      contains "/" pre = false ->
      updateStatus c (pre +++ "/" +++ post) commit status w
      = mkResult
          (Return (err_of (fst (respond w (status_call pre post commit status)))))
          (snd (respond w (status_call pre post commit status)))
          [(CreateStatus pre post commit
              {| State := status; status_Context := "container/docker" |},
            fst (respond w (status_call pre post commit status)))])
  /\ (forall c repo commit status w,
         contains "/" repo = false ->
         updateStatus c repo commit status w
         = mkResult (Panic "runtime error: index out of range") w []).
Proof.
  split.
  - intros c pre post commit status w Hpre.
    apply updateStatus_cut.
    change ("/" +++ post) with (String "/" post).
    apply cut_append. exact Hpre.
  - intros c repo commit status w Hrepo.
    apply updateStatus_nocut. apply cut_none. exact Hrepo.
Qed.

Lemma Build_body_nil_cut c opts w :
  outcome (Build_body c opts w) = Return None ->
  exists o n, cut "/" (Repository opts) = Some (o, n).
Proof.
  run_build.
  all: intros Hout; try discriminate.
  all: eauto.
Qed.

(** C10.  What the deferred report returns is dropped.  Unless [Build]
    panics, it returns what its body (the allocation, the ["pending"]
    report and the stages) returns; when the body returns [nil], [Build]
    returns [nil] and its last call is the ["success"] report, whatever
    the answer to that report, an error included. *)
Theorem C10_deferred_error_discarded :
  (forall c opts w,
      (forall msg, outcome (Build c opts w) <> Panic msg) ->
      outcome (Build c opts w) = outcome (Build_body c opts w))
  /\ (forall c opts w,
         outcome (Build_body c opts w) = Return None ->
         outcome (Build c opts w) = Return None
         /\ exists owner name,
             trace (Build c opts w)
             = trace (Build_body c opts w)
               ++ [(status_call owner name (Commit opts) "success",
                    fst (respond (world (Build_body c opts w))
                           (status_call owner name (Commit opts) "success")))]).
Proof.
  split.
  - intros c opts w Hnp. unfold Build in *.
    destruct (Build_body c opts w) as [o w1 t1].
    unfold Build_deferred, bind in *.
    destruct (updateStatus c (Repository opts) (Commit opts) _ w1)
      as [[x|msg] w2 t2]; simpl in *; [reflexivity|].
    exfalso. exact (Hnp msg eq_refl).
  - intros c opts w Hnil.
    destruct (Build_body_nil_cut c opts w Hnil) as (o & n & Hcut).
    unfold Build. destruct (Build_body c opts w) as [ob w1 t1].
    simpl in Hnil. subst ob. unfold Build_deferred, bind.
    rewrite (updateStatus_cut c _ _ _ w1 o n Hcut). simpl.
    split; [reflexivity|]. exists o, n. reflexivity.
Qed.

(** ** The log sink *)

Lemma element_nosep x :
  contains "/" x = false ->
  Filepath.element x = (list_ascii_of_string x, "").
Proof.
  induction x as [|c x IH]; simpl; intros H; [reflexivity|].
  apply orb_false_iff in H as [Hc Hx].
  unfold Filepath.isSep. rewrite Hc, (IH Hx). reflexivity.
Qed.

Lemma contains_append sep x y :
  contains sep (x +++ y) = contains sep x || contains sep y.
Proof.
  induction x as [|c x IH]; [reflexivity|].
  change (String c x +++ y) with (String c (x +++ y)).
  simpl. rewrite IH, orb_assoc. reflexivity.
Qed.

Lemma length_append x y :
  String.length (x +++ y) = String.length x + String.length y.
Proof.
  induction x as [|c x IH]; [reflexivity|].
  change (String c x +++ y) with (String c (x +++ y)).
  simpl. rewrite IH. reflexivity.
Qed.

Lemma string_of_list_ascii_app l x :
  string_of_list_ascii (l ++ list_ascii_of_string x)
  = string_of_list_ascii l +++ x.
Proof.
  induction l as [|c l IH]; simpl.
  - apply string_of_list_ascii_of_string.
  - rewrite IH. reflexivity.
Qed.

(** One element without separator, other than [.] and [..], is copied
    behind a separator. *)
Lemma clean_loop_element f x ro dd :
  contains "/" x = false ->
  3 <= String.length x ->
  ro <> [] ->
  Filepath.clean_loop (S f) false x ro dd
  = rev (list_ascii_of_string x) ++ "/"%char :: ro.
Proof.
  intros Hx Hlen Hro.
  assert (Hel := element_nosep x Hx).
  destruct x as [|c [|c1 [|c2 x2]]]; simpl in Hlen; try lia.
  simpl in Hx.
  apply orb_false_iff in Hx as [Hc Hx].
  apply orb_false_iff in Hx as [Hc1 Hx].
  apply orb_false_iff in Hx as [Hc2 Hx2].
  cbn [Filepath.clean_loop Filepath.end_or_sep Filepath.tail].
  unfold Filepath.isSep. rewrite Hc, Hc1.
  rewrite andb_false_r.
  rewrite Hc2, andb_false_r. rewrite Hel.
  destruct ro as [|r0 ro]; [contradiction|].
  simpl negb. simpl orb.
  destruct f; reflexivity.
Qed.

Lemma Join_logs nm :
  contains "/" nm = false ->
  Filepath.Join ["logs"; nm +++ ".txt"] = "logs/" +++ nm +++ ".txt".
Proof.
  intros Hnm.
  assert (Hx : contains "/" (nm +++ ".txt") = false).
  { rewrite contains_append, Hnm. reflexivity. }
  assert (Hlen : 3 <= String.length (nm +++ ".txt")).
  { rewrite length_append. simpl. lia. }
  set (x := nm +++ ".txt") in *. clearbody x.
  change (Filepath.Join ["logs"; x]) with (Filepath.Clean ("logs/" +++ x)).
  change ("logs/" +++ x)
    with (String "l" (String "o" (String "g" (String "s" (String "/" x))))).
  unfold Filepath.Clean.
  change (Filepath.isSep "l") with false. cbv iota.
  change (String.length (String "l" (String "o" (String "g" (String "s" (String "/" x))))))
    with (S (S (S (S (S (String.length x)))))).
  change (Filepath.clean_loop (S (S (S (S (S (String.length x))))))
            false (String "l" (String "o" (String "g" (String "s" (String "/" x))))) [] 0)
    with (Filepath.clean_loop (S (S (S (String.length x)))) false x
            ["s"; "g"; "o"; "l"]%char 0).
  rewrite clean_loop_element; [|exact Hx|exact Hlen|discriminate].
  destruct (rev (list_ascii_of_string x) ++ ["/"; "s"; "g"; "o"; "l"]%char)
    as [|c0 l0] eqn:E.
  - destruct (rev (list_ascii_of_string x)); discriminate.
  - rewrite <- E. rewrite rev_app_distr, rev_involutive.
    change (rev ["/"; "s"; "g"; "o"; "l"]%char) with ["l"; "o"; "g"; "s"; "/"]%char.
    rewrite string_of_list_ascii_app. reflexivity.
Qed.

Lemma Write_all_spec l ps :
  b (Write_all l ps) = b l ++ concat ps
  /\ bucket (Write_all l ps) = bucket l
  /\ name (Write_all l ps) = name l.
Proof.
  revert l. induction ps as [|p ps IH]; intros l.
  - simpl. rewrite app_nil_r. auto.
  - cbn [Write_all concat].
    destruct (IH (fst (Write l p))) as (Hb & Hbk & Hn).
    rewrite Hb, Hbk, Hn. simpl. rewrite app_assoc. auto.
Qed.

(** C9, as amended.  Closing the stream of [Create l nm] after the
    writes [ps] makes exactly one [PutObject] call: its body is the
    concatenation of [ps] in order, its key is
    [filepath.Join("logs", nm + ".txt")], the ACL is ["public-read"] and
    the content type ["text/plain"]; [Close] returns the error of that
    call.  The key is [logs/<nm>.txt] whenever [nm] contains no ["/"].
    [Open] fails with the "not implemented" error for every name. *)
Theorem C9_log_sink :
  (forall l nm ps w,
      Close (Write_all (fst (Create l nm)) ps) w
      = mkResult
          (Return (err_of (fst (respond w (log_put l nm (concat ps))))))
          (snd (respond w (log_put l nm (concat ps))))
          [(log_put l nm (concat ps),
            fst (respond w (log_put l nm (concat ps))))])
  /\ (forall nm,
         contains "/" nm = false ->
         Filepath.Join ["logs"; nm +++ ".txt"] = "logs/" +++ nm +++ ".txt")
  /\ (forall l nm,
         Open l nm = (None, Some "s3 logs: read is not implemented yet")).
Proof.
  split; [|split].
  - intros l nm ps w. unfold Close, bind, call, ret, log_put.
    destruct (Write_all_spec (fst (Create l nm)) ps) as (Hb & Hbk & Hn).
    rewrite Hb, Hbk, Hn. simpl.
    destruct (respond w _) as [rep w']. reflexivity.
  - exact Join_logs.
  - reflexivity.
Qed.

(** ** The regular expression of [tagNotFound] *)

Lemma append_nil_r s : s +++ "" = s.
Proof.
  induction s as [|c s IH]; [reflexivity|].
  change (String c s +++ "") with (String c (s +++ "")). rewrite IH. reflexivity.
Qed.

Lemma append_assoc s t u : (s +++ t) +++ u = s +++ t +++ u.
Proof.
  induction s as [|c s IH]; [reflexivity|].
  change (String c (s +++ t) +++ u = String c (s +++ t +++ u)).
  change (String c ((s +++ t) +++ u) = String c (s +++ t +++ u)).
  rewrite IH. reflexivity.
Qed.

Lemma append_eq_nil s t : s +++ t = "" -> s = "" /\ t = "".
Proof.
  destruct s; [auto|]. intros H. discriminate.
Qed.

Lemma append_eq_cons s t c w :
  s +++ t = String c w ->
  (s = "" /\ t = String c w) \/ (exists s', s = String c s' /\ w = s' +++ t).
Proof.
  destruct s as [|d s]; [auto|].
  change (String d s +++ t) with (String d (s +++ t)).
  intros H. injection H as -> <-. right. eauto.
Qed.

Lemma nullable_matches r : Regexp.nullable r = true <-> matches r "".
Proof.
  split.
  - induction r; simpl; intros H; try discriminate.
    + constructor.
    + apply andb_true_iff in H as [H1 H2].
      change "" with ("" +++ ""). constructor; auto.
    + apply orb_true_iff in H as [H|H]; [apply matches_alt_l|apply matches_alt_r]; auto.
    + constructor.
  - intros H. remember "" as w eqn:E.
    induction H; simpl; try reflexivity; try discriminate.
    + apply append_eq_nil in E as [-> ->]. rewrite IHmatches1, IHmatches2; auto.
    + rewrite IHmatches; auto.
    + rewrite IHmatches; auto. apply orb_true_r.
Qed.

Lemma matches_void w : ~ matches Regexp.Void w.
Proof. intros H. inversion H. Qed.

Lemma matches_eps_inv w : matches Regexp.Eps w -> w = "".
Proof. intros H. inversion H. reflexivity. Qed.

Lemma cat_matches r s w : matches (Regexp.cat r s) w <-> matches (Regexp.Cat r s) w.
Proof.
  split.
  - destruct r; simpl; intros H;
      try (destruct s; solve [exact H | destruct (matches_void _ H)]);
      try solve [destruct (matches_void _ H)].
    change w with ("" +++ w). constructor; [constructor|].
    destruct s; exact H.
  - intros H. inversion H as [| |r0 s0 u v Hu Hv| | | |]; subst.
    destruct r; simpl;
      try (destruct s; solve [constructor; assumption | destruct (matches_void _ Hv)]);
      try solve [destruct (matches_void _ Hu)].
    apply matches_eps_inv in Hu. subst u.
    destruct s; solve [exact Hv | destruct (matches_void _ Hv)].
Qed.

Lemma alt_matches r s w : matches (Regexp.alt r s) w <-> matches (Regexp.Alt r s) w.
Proof.
  split.
  - destruct r; simpl; intros H;
      try (destruct s; solve [exact H | apply matches_alt_l; exact H]);
      try solve [apply matches_alt_r; exact H].
  - intros H. inversion H; subst.
    + destruct r; simpl;
        try (destruct s; solve [assumption | apply matches_alt_l; assumption]);
        try solve [match goal with Hv : matches Regexp.Void _ |- _ => destruct (matches_void _ Hv) end].
    + destruct r; simpl;
        try (destruct s; solve [assumption | apply matches_alt_r; assumption
                               | match goal with Hv : matches Regexp.Void _ |- _ => destruct (matches_void _ Hv) end]).
Qed.

Lemma matches_star_cons r c w :
  matches (Regexp.Star r) (String c w) ->
  exists u v, w = u +++ v /\ matches r (String c u) /\ matches (Regexp.Star r) v.
Proof.
  intros H. remember (Regexp.Star r) as sr eqn:Er. remember (String c w) as cw eqn:Ew.
  revert r c w Er Ew.
  induction H as [| | | | | |r0 u v Hu _ Hv IHv]; intros r1 c1 w1 Er Ew;
    try discriminate.
  injection Er as Er. subst r0.
  destruct (append_eq_cons _ _ _ _ Ew) as [[Eu Ev]|(u' & Eu & Ev)]; subst.
  - apply (IHv r1 c1 w1 eq_refl eq_refl).
  - exists u', v. auto.
Qed.

Lemma deriv_matches r : forall c w, matches (Regexp.deriv c r) w <-> matches r (String c w).
Proof.
  induction r as [| |p|r IHr s IHs|r IHr s IHs|r IHr]; intros c w; simpl.
  - split; intros H; inversion H.
  - split; intros H; inversion H.
  - destruct (p c) eqn:Hp; split; intros H.
    + apply matches_eps_inv in H. subst w. constructor. exact Hp.
    + inversion H; subst. constructor.
    + inversion H.
    + inversion H; subst. congruence.
  - rewrite alt_matches. split; intros H.
    + inversion H as [| | |r0 s0 u Hu|r0 s0 u Hu| |]; subst.
      * apply cat_matches in Hu.
        inversion Hu as [| |r0 s0 u v Hu1 Hv1| | | |]; subst.
        apply IHr in Hu1.
        change (String c (u +++ v)) with (String c u +++ v).
        constructor; assumption.
      * destruct (Regexp.nullable r) eqn:Hn; [|inversion Hu].
        apply IHs in Hu. apply nullable_matches in Hn.
        change (String c w) with ("" +++ String c w).
        constructor; assumption.
    + inversion H as [| |r0 s0 u v Hu Hv Er Ew| | | |]; subst.
      destruct (append_eq_cons _ _ _ _ Ew) as [[-> ->]|(u' & -> & ->)].
      * apply matches_alt_r.
        apply nullable_matches in Hu. rewrite Hu. apply IHs. exact Hv.
      * apply matches_alt_l. apply cat_matches.
        constructor; [apply IHr; exact Hu|exact Hv].
  - rewrite alt_matches. split; intros H.
    + inversion H; subst; [apply matches_alt_l; apply IHr|apply matches_alt_r; apply IHs];
        assumption.
    + inversion H; subst; [apply matches_alt_l; apply IHr|apply matches_alt_r; apply IHs];
        assumption.
  - rewrite cat_matches. split; intros H.
    + inversion H as [| |r0 s0 u v Hu Hv| | | |]; subst.
      apply IHr in Hu.
      change (String c (u +++ v)) with (String c u +++ v).
      constructor; assumption.
    + destruct (matches_star_cons _ _ _ H) as (u & v & -> & Hu & Hv).
      constructor; [apply IHr; exact Hu|exact Hv].
Qed.

Lemma full_match_matches s : forall r, Regexp.full_match r s = true <-> matches r s.
Proof.
  induction s as [|c s IH]; intros r; simpl.
  - apply nullable_matches.
  - rewrite IH. apply deriv_matches.
Qed.

Lemma matches_Lit l w : matches (Regexp.Lit l) w <-> w = l.
Proof.
  revert w. induction l as [|c l IH]; intros w; simpl.
  - split; intros H; [apply matches_eps_inv; exact H|subst; constructor].
  - split; intros H.
    + inversion H as [| |r0 s0 u v Hu Hv| | | |]; subst.
      inversion Hu; subst. apply IH in Hv. subst v.
      match goal with Hc : (_ =? _)%char = true |- _ => apply Ascii.eqb_eq in Hc; subst end.
      reflexivity.
    + subst w. change (String c l) with (String c "" +++ l).
      constructor; [constructor; apply Ascii.eqb_refl|apply IH; reflexivity].
Qed.

Lemma matches_star_class p w :
  matches (Regexp.Star (Regexp.Class p)) w <-> all_bytes p w = true.
Proof.
  revert p. induction w as [|c w IH]; intros p; simpl.
  - split; intros _; [reflexivity|constructor].
  - split; intros H.
    + destruct (matches_star_cons _ _ _ H) as (u & v & -> & Hu & Hv).
      inversion Hu; subst. apply IH in Hv.
      match goal with Hc : p _ = true |- _ => rewrite Hc end. exact Hv.
    + apply andb_true_iff in H as [Hc Hw].
      change (String c w) with (String c "" +++ w).
      constructor; [constructor; exact Hc|apply IH; exact Hw].
Qed.

Lemma matches_plus_class p w :
  matches (Regexp.Plus (Regexp.Class p)) w <-> w <> "" /\ all_bytes p w = true.
Proof.
  unfold Regexp.Plus. split; intros H.
  - inversion H as [| |r0 s0 u v Hu Hv| | | |]; subst.
    inversion Hu; subst. apply matches_star_class in Hv.
    split; [discriminate|]. simpl.
    match goal with Hc : p _ = true |- _ => rewrite Hc end. exact Hv.
  - destruct H as [Hne Hall]. destruct w as [|c w]; [contradiction|].
    simpl in Hall. apply andb_true_iff in Hall as [Hc Hw].
    change (String c w) with (String c "" +++ w).
    constructor; [constructor; exact Hc|apply matches_star_class; exact Hw].
Qed.

Lemma matches_any w : matches (Regexp.Star Regexp.any_byte) w.
Proof.
  apply matches_star_class. induction w; simpl; auto.
Qed.

(** X1.  [tagNotFound] holds of an error message exactly when the message
    contains ["Tag "], a non-empty run of bytes without white space,
    [" not found in repository "] and a further byte that is not white
    space (here: a non-empty run [r] of them); what comes before and after
    is free. *)
Theorem X1_tagNotFound_iff (e : string) :
  tagNotFound e = true <->
  exists p t r s,
    e = p +++ "Tag " +++ t +++ " not found in repository " +++ r +++ s
    /\ t <> "" /\ no_space t = true
    /\ r <> "" /\ no_space r = true.
Proof.
  unfold tagNotFound, Regexp.MatchString, tagNotFoundRegex, no_space.
  rewrite full_match_matches. split.
  - intros H.
    inversion H as [| |r0 s0 a m Ha Hm| | | |]; subst. clear H Ha.
    inversion Hm as [| |r0 s0 m1 z Hm1 Hz| | | |]; subst. clear Hm Hz.
    inversion Hm1 as [| |r0 s0 d m2 Hd Hm2| | | |]; subst. clear Hm1 Hd.
    inversion Hm2 as [| |r0 s0 l1 m3 Hl1 Hm3| | | |]; subst. clear Hm2.
    inversion Hm3 as [| |r0 s0 t m4 Ht Hm4| | | |]; subst. clear Hm3.
    inversion Hm4 as [| |r0 s0 l2 r Hl2 Hr| | | |]; subst. clear Hm4.
    change (matches (Regexp.Lit "Tag ") l1) in Hl1.
    change (matches (Regexp.Lit " not found in repository ") l2) in Hl2.
    apply matches_Lit in Hl1, Hl2. subst l1 l2.
    apply matches_plus_class in Ht as [Htne Ht], Hr as [Hrne Hr].
    exists (a +++ d), t, r, z. repeat split; try assumption.
    rewrite !append_assoc. reflexivity.
  - intros (p & t & r & s & -> & Htne & Ht & Hrne & Hr).
    constructor; [apply matches_any|].
    replace ("Tag " +++ t +++ " not found in repository " +++ r +++ s)
      with (("" +++ "Tag " +++ t +++ " not found in repository " +++ r) +++ s)
      by (rewrite !append_assoc; reflexivity).
    constructor; [|apply matches_any].
    constructor; [constructor|].
    constructor; [apply matches_Lit; reflexivity|].
    constructor; [apply matches_plus_class; auto|].
    constructor; [apply matches_Lit; reflexivity|].
    apply matches_plus_class; auto.
Qed.

(** ** Further properties of [pullTags] *)


(** X2.  [pullTags] returns what the last pull it made returned, an error
    or [nil], and [nil] when it made none; it makes no more pulls than
    there are candidates, and none only for the empty list. *)
Theorem X2_pullTags_returns_last_pull c repo wr tags w :
  outcome (pullTags c repo wr tags w)
  = Return (last (errors (trace (pullTags c repo wr tags w))) None)
  /\ length (trace (pullTags c repo wr tags w)) <= length tags
  /\ (trace (pullTags c repo wr tags w) = [] <-> tags = []).
Proof.
  unfold pullTags.
  destruct (pullTags_loop_last c repo wr tags None w) as (Hout & Hlen & Hne).
  split; [exact Hout|]. split; [exact Hlen|]. split.
  - intros E. destruct tags as [|t ts]; [reflexivity|].
    exfalso. apply Hne; [discriminate|exact E].
  - intros ->. reflexivity.
Qed.


(** X3.  [pullTags] returns [nil] exactly when the candidate list is
    empty or one of its pulls succeeded. *)
Theorem X3_pullTags_nil_iff c repo wr tags w :
  outcome (pullTags c repo wr tags w) = Return None
  <-> tags = []
      \/ exists i call out,
          nth_error (trace (pullTags c repo wr tags w)) i = Some (call, Ok out).
Proof.
  split.
  - intros Hout.
    unfold pullTags in *.
    destruct (pullTags_loop_last c repo wr tags None w) as (Hlast & _ & Hne).
    destruct tags as [|t ts]; [left; reflexivity|right].
    rewrite Hlast in Hout. injection Hout as Hout.
    apply last_error_nil; [|exact Hout].
    apply Hne. discriminate.
  - intros [->|(i & call & out & Hi)]; [reflexivity|].
    unfold pullTags in *.
    destruct (pullTags_loop_shape c repo wr tags None w) as (_ & Hstop & _).
    apply (Hstop i (call, Ok out) Hi eq_refl).
Qed.

(** ** Further properties of [Build] *)

Ltac sublist_tac :=
  repeat first [ apply sublist_nil | apply sublist_keep | apply sublist_skip ].

(** X4.  The calls of every run of [Build] are calls of the fixed
    sequence temp dir, "pending", git clone, git checkout, pull branch,
    pull latest, docker build, inspect, tag branch, tag commit, push
    latest, push branch, push commit, terminal report, in this order and
    each at most once; the commands run in the directory that [TempDir]
    answered (the clone in [BuildDir], with that directory as target). *)
Theorem X4_Build_follows_pipeline c opts w :
  exists t,
    (t = "success" \/ t = "error")
    /\ sublist (map fst (trace (Build c opts w)))
         (pipeline c opts (workdir (trace (Build c opts w))) t).
Proof.
  unfold pipeline, owner_name. run_build.
  all: first [ exists "success"; split; [left; reflexivity|]; solve [sublist_tac]
             | exists "error"; split; [right; reflexivity|]; solve [sublist_tac] ].
Qed.

Ltac nth_split H i :=
  simpl in H;
  match type of H with
  | nth_error [] _ = Some _ => destruct i; simpl in H; discriminate H
  | nth_error (_ :: _) _ = Some _ =>
      destruct i as [|i];
      [ simpl in H; injection H as ? ?; subst
      | simpl in H; nth_split H i ]
  end.

(** X5.  [Build] stops at the first failure: a call that failed, other
    than a pull with a tag-not-found error, is followed by exactly one
    call, the ["error"] status report for the commit, which is the last
    call; or it is itself the terminal status report and the last call;
    or the identifier has no ["/"], [Build] panics and the failed call is
    the last one. *)
Theorem X5_Build_fail_fast c opts w i call e :
  nth_error (trace (Build c opts w)) i = Some (call, Fail e) ->
  (stage_of call = Some "pull" -> tagNotFound e = false) ->
  (length (trace (Build c opts w)) = S (S i)
   /\ exists rep,
       nth_error (trace (Build c opts w)) (S i)
       = Some (CreateStatus (fst (owner_name (Repository opts)))
                 (snd (owner_name (Repository opts))) (Commit opts)
                 {| State := "error"; status_Context := "container/docker" |},
               rep))
  \/ (length (trace (Build c opts w)) = S i
      /\ exists t,
          (t = "success" \/ t = "error")
          /\ call = CreateStatus (fst (owner_name (Repository opts)))
                      (snd (owner_name (Repository opts))) (Commit opts)
                      {| State := t; status_Context := "container/docker" |})
  \/ (length (trace (Build c opts w)) = S i
      /\ contains "/" (Repository opts) = false
      /\ exists msg, outcome (Build c opts w) = Panic msg).
Proof.
  set (nth := @nth_error Event).
  change (nth (trace (Build c opts w)) i = Some (call, Fail e) ->
          (stage_of call = Some "pull" -> tagNotFound e = false) ->
          (length (trace (Build c opts w)) = S (S i)
           /\ exists rep,
               nth (trace (Build c opts w)) (S i)
               = Some (CreateStatus (fst (owner_name (Repository opts)))
                         (snd (owner_name (Repository opts))) (Commit opts)
                         {| State := "error"; status_Context := "container/docker" |},
                       rep))
          \/ (length (trace (Build c opts w)) = S i
              /\ exists t,
                  (t = "success" \/ t = "error")
                  /\ call = CreateStatus (fst (owner_name (Repository opts)))
                              (snd (owner_name (Repository opts))) (Commit opts)
                              {| State := t; status_Context := "container/docker" |})
          \/ (length (trace (Build c opts w)) = S i
              /\ contains "/" (Repository opts) = false
              /\ exists msg, outcome (Build c opts w) = Panic msg)).
  revert i call e. unfold owner_name. run_build.
  all: intros i call0 err0 Hnth Hpull.
  all: subst nth.
  all: nth_split Hnth i.
  all: first
         [ discriminate
         | left; split; [reflexivity|]; eexists; reflexivity
         | right; left; split; [reflexivity|]; eexists;
           refine (conj _ eq_refl); first [left; reflexivity | right; reflexivity]
         | right; right; split; [reflexivity|];
           split; [apply cut_none_inv; assumption|]; eexists; reflexivity
         | exfalso; specialize (Hpull eq_refl); congruence ].
Qed.

(** X6.  For an identifier with a ["/"]: when [TempDir] fails with [e],
    [Build] returns ["tempdir: e"] and its only other call is the
    ["error"] report; when the ["pending"] report fails with [e], [Build]
    returns ["status: e"] and its only other call is the ["error"]
    report, so no stage is run. *)
Theorem X6_Build_tempdir_and_status_failures c opts w :
  contains "/" (Repository opts) = true ->
  (forall call e,
      nth_error (trace (Build c opts w)) 0 = Some (call, Fail e) ->
      outcome (Build c opts w) = Return (Some ("tempdir: " +++ e))
      /\ statuses (trace (Build c opts w)) = ["error"]
      /\ length (trace (Build c opts w)) = 2)
  /\ (forall call0 dir call e,
         nth_error (trace (Build c opts w)) 0 = Some (call0, Ok dir) ->
         nth_error (trace (Build c opts w)) 1 = Some (call, Fail e) ->
         outcome (Build c opts w) = Return (Some ("status: " +++ e))
         /\ statuses (trace (Build c opts w)) = ["pending"; "error"]
         /\ length (trace (Build c opts w)) = 3).
Proof.
  intros Hc. destruct (contains_cut _ _ Hc) as (o & n & Hcut).
  run_build.
  all: try congruence.
  all: split;
    [ intros call0 err0 H0 | intros call0 dir0 call1 err1 H0 H1 ].
  all: simpl in *.
  all: try discriminate.
  all: try (injection H0 as ? ?; subst).
  all: try (injection H1 as ? ?; subst).
  all: try discriminate.
  all: repeat split; reflexivity.
Qed.

(** X7.  On an identifier without ["/"], [Build] panics with the index
    error of [updateStatus]; its only call is [TempDir], and no status,
    neither ["pending"] nor a terminal one, is reported. *)
Theorem X7_Build_malformed_repository_panics c opts w :
  contains "/" (Repository opts) = false ->
  outcome (Build c opts w) = Panic "runtime error: index out of range"
  /\ map fst (trace (Build c opts w)) = [TempDir (BuildDir c) (Commit opts)]
  /\ statuses (trace (Build c opts w)) = [].
Proof.
  intros Hc. assert (Hcut := cut_none _ _ Hc).
  run_build.
  all: try congruence.
  all: repeat split; reflexivity.
Qed.

(** X8.  [Build] pushes only what it has built and tagged: when a
    [PushImage] call is made, [docker build] (in the working directory),
    [InspectImage] and the [TagImage] calls for the branch and for the
    commit were all made before and succeeded. *)
Theorem X8_Build_push_after_build_and_tag c opts w :
  stage_events "push" (trace (Build c opts w)) <> [] ->
  exists o1 o2 o3 o4,
    stage_events "build" (trace (Build c opts w))
    ++ stage_events "tag" (trace (Build c opts w))
    = [(Run (docker_build_cmd opts (workdir (trace (Build c opts w)))), Ok o1);
       (InspectImage (Repository opts), Ok o2);
       (tag_call (Repository opts) (Branch opts), Ok o3);
       (tag_call (Repository opts) (Commit opts), Ok o4)].
Proof.
  run_build.
  all: intros Hpush.
  all: try (exfalso; apply Hpush; reflexivity).
  all: do 4 eexists; reflexivity.
Qed.

(** X9.  [Build] returns [nil] exactly when three [PushImage] calls
    succeeded. *)
Theorem X9_Build_nil_iff_three_pushes c opts w :
  outcome (Build c opts w) = Return None
  <-> ok_count "push" (trace (Build c opts w)) = 3.
Proof.
  unfold ok_count. run_build.
  all: split; intros H; first [discriminate | reflexivity].
Qed.

(** ** Further properties of the log sink *)

(** X10.  [Close] does not empty the buffer: after a [Close], a further
    [Write] of [p] and a second [Close] upload the whole content again,
    the earlier bytes followed by [p], under the same key. *)
Theorem X10_Close_keeps_buffer l nm ps p w :
  map fst
    (trace (bind (Close (Write_all (fst (Create l nm)) ps))
              (fun _ => Close (fst (Write (Write_all (fst (Create l nm)) ps) p)))
              w))
  = [log_put l nm (concat ps); log_put l nm (concat ps ++ p)].
Proof.
  destruct (Write_all_spec (fst (Create l nm)) ps) as (Hb & Hbk & Hn).
  set (wr := Write_all (fst (Create l nm)) ps) in *. clearbody wr.
  destruct wr as [wb wbucket wname]. simpl in Hb, Hbk, Hn. subst.
  unfold Close, bind, call, ret, log_put, Write. simpl.
  destruct (respond w _) as [rep w1]. simpl.
  destruct (respond w1 _) as [rep2 w2]. simpl. reflexivity.
Qed.

Lemma append_inj_l p x y : p +++ x = p +++ y -> x = y.
Proof.
  induction p as [|c p IH]; intros H; [exact H|].
  change (String c (p +++ x) = String c (p +++ y)) in H.
  injection H as H. apply IH. exact H.
Qed.

Lemma append_inj_r s : forall x y, x +++ s = y +++ s -> x = y.
Proof.
  induction x as [|c x IH]; intros y H.
  - destruct y as [|d y]; [reflexivity|].
    apply (f_equal String.length) in H.
    change (String.length s = S (String.length (y +++ s))) in H.
    rewrite length_append in H. lia.
  - destruct y as [|d y].
    + apply (f_equal String.length) in H.
      change (S (String.length (x +++ s)) = String.length s) in H.
      rewrite length_append in H. lia.
    + change (String c (x +++ s) = String d (y +++ s)) in H.
      injection H as -> H. f_equal. apply IH. exact H.
Qed.

(** X11.  Two log names without ["/"] never share a key: [Create] gives
    them different keys unless the names are equal. *)
Theorem X11_Create_key_injective l1 l2 n1 n2 :
  contains "/" n1 = false ->
  contains "/" n2 = false ->
  name (fst (Create l1 n1)) = name (fst (Create l2 n2)) ->
  n1 = n2.
Proof.
  intros H1 H2 H.
  change (Filepath.Join ["logs"; n1 +++ ".txt"]
          = Filepath.Join ["logs"; n2 +++ ".txt"]) in H.
  rewrite (Join_logs n1 H1), (Join_logs n2 H2) in H.
  apply append_inj_l in H. apply append_inj_r in H. exact H.
Qed.

(** X12.  When every collaborator answers with success and the identifier
    has a ["/"], [Build] returns [nil] and makes exactly these calls:
    temp dir, "pending", git clone, git checkout, the pull of the branch
    tag (["latest"] is not pulled), docker build, inspect, the two tags,
    the three pushes and "success". *)
Theorem X12_Build_all_succeed c opts w :
  (forall w0 call, exists out w1, respond w0 call = (Ok out, w1)) ->
  contains "/" (Repository opts) = true ->
  outcome (Build c opts w) = Return None
  /\ map fst (trace (Build c opts w))
     = [TempDir (BuildDir c) (Commit opts);
        status_call (fst (owner_name (Repository opts)))
          (snd (owner_name (Repository opts))) (Commit opts) "pending";
        Run (clone_cmd c opts (workdir (trace (Build c opts w))));
        Run (checkout_cmd opts (workdir (trace (Build c opts w))));
        pull_call c (Repository opts) (OutputStream opts) (Branch opts);
        Run (docker_build_cmd opts (workdir (trace (Build c opts w))));
        InspectImage (Repository opts);
        tag_call (Repository opts) (Branch opts);
        tag_call (Repository opts) (Commit opts);
        push_call c (Repository opts) (OutputStream opts) "latest";
        push_call c (Repository opts) (OutputStream opts) (Branch opts);
        push_call c (Repository opts) (OutputStream opts) (Commit opts);
        status_call (fst (owner_name (Repository opts)))
          (snd (owner_name (Repository opts))) (Commit opts) "success"].
Proof.
  intros Hok Hc. destruct (contains_cut _ _ Hc) as (o & n & Hcut).
  unfold owner_name. run_build.
  all: try congruence.
  all: try (exfalso;
            match goal with
            | H : respond ?w0 ?call = (Fail _, _) |- _ =>
                destruct (Hok w0 call) as (? & ? & ?); congruence
            end).
  all: split; reflexivity.
Qed.

End Program.

Arguments mkResult {World A}.
Arguments outcome {World A}.
Arguments world {World A}.
Arguments trace {World A}.

(** ** The claims on concrete runs *)

(** C1 as it is stated fails: both candidates of [widgets] are misses,
    and [pullTags] returns the error of the second one, not [nil];
    [Build] never reaches its build stage. *)
Lemma C1_all_miss_counterexample :
  ~ (["main"; "latest"] <> [] ->
     all_miss (trace (pullTags Script play conveyor0 "acme/widgets" 1
                        ["main"; "latest"]
                        [Fail (miss "main"); Fail (miss "latest")])) = true ->
     outcome (pullTags Script play conveyor0 "acme/widgets" 1
                ["main"; "latest"]
                [Fail (miss "main"); Fail (miss "latest")]) = Return None)
  /\ stage_events "build"
       (trace (Build Script play conveyor0 widgets script_all_miss)) = [].
Proof.
  split; [|vm_compute; reflexivity].
  intros H.
  assert (Hne : ["main"; "latest"] <> []) by discriminate.
  specialize (H Hne). vm_compute in H. specialize (H eq_refl). discriminate.
Qed.

Lemma C1_all_miss_witness :
  (map fst (trace (pullTags Script play conveyor0 "acme/widgets" 1
                     ["main"; "latest"]
                     [Fail (miss "main"); Fail (miss "latest")]))
   = map (pull_call conveyor0 "acme/widgets" 1) ["main"; "latest"]
   /\ exists e,
       last (errors (trace (pullTags Script play conveyor0 "acme/widgets" 1
                              ["main"; "latest"]
                              [Fail (miss "main"); Fail (miss "latest")])))
         None = Some e
       /\ tagNotFound e = true
       /\ outcome (pullTags Script play conveyor0 "acme/widgets" 1
                     ["main"; "latest"]
                     [Fail (miss "main"); Fail (miss "latest")])
          = Return (Some e))
  /\ (map fst (stage_events "pull"
                  (trace (Build Script play conveyor0 widgets script_all_miss)))
      = [pull_call conveyor0 (Repository widgets) (OutputStream widgets)
           (Branch widgets);
         pull_call conveyor0 (Repository widgets) (OutputStream widgets)
           "latest"]
      /\ stage_events "build"
           (trace (Build Script play conveyor0 widgets script_all_miss)) = []
      /\ statuses (trace (Build Script play conveyor0 widgets script_all_miss))
         = ["pending"; "error"]
      /\ exists e,
          last (errors (stage_events "pull"
                          (trace (Build Script play conveyor0 widgets
                                    script_all_miss)))) None = Some e
          /\ tagNotFound e = true
          /\ outcome (Build Script play conveyor0 widgets script_all_miss)
             = Return (Some ("pull: " +++ e))).
Proof.
  split.
  - apply (proj1 (C1_all_miss_returns_last_error Script play)).
    + discriminate.
    + vm_compute. reflexivity.
  - apply (proj1 (proj2 (C1_all_miss_returns_last_error Script play))).
    + vm_compute. discriminate.
    + vm_compute. reflexivity.
Defined.

(** C2 as it is stated fails: when [TempDir] fails, the only report is
    ["error"]. *)
Lemma C2_no_pending_counterexample :
  ~ (exists t,
        (t = "success" \/ t = "error")
        /\ statuses (trace (Build Script play conveyor0 widgets
                              script_tempdir_fails))
           = ["pending"; t]).
Proof.
  intros (t & _ & H). vm_compute in H. discriminate.
Qed.

Lemma C2_terminal_status_witness :
  exists t rep0 rest,
    ((t = "success"
      /\ outcome (Build Script play conveyor0 widgets script_tempdir_fails)
         = Return None)
     \/ (t = "error"
         /\ exists e,
             outcome (Build Script play conveyor0 widgets script_tempdir_fails)
             = Return (Some e)))
    /\ last (map status_of
               (trace (Build Script play conveyor0 widgets script_tempdir_fails)))
         None = Some t
    /\ trace (Build Script play conveyor0 widgets script_tempdir_fails)
       = (TempDir (BuildDir conveyor0) (Commit widgets), rep0) :: rest
    /\ match rep0 with
       | Ok _ =>
           statuses (trace (Build Script play conveyor0 widgets
                              script_tempdir_fails)) = ["pending"; t]
       | Fail _ =>
           t = "error"
           /\ statuses (trace (Build Script play conveyor0 widgets
                                 script_tempdir_fails)) = [t]
       end.
Proof.
  apply (C2_terminal_status Script play conveyor0 widgets script_tempdir_fails).
  reflexivity.
Defined.

(** C3 as it is stated fails for [push]: its calls carry no force
    option. *)
Lemma C3_push_force_counterexample :
  ~ (forall ev,
        In ev (trace (push Script play conveyor0 "acme/widgets" 1
                        ["latest"; "main"; "abc123"] [])) ->
        forced (fst ev) = true).
Proof.
  intros H.
  specialize (H (push_call conveyor0 "acme/widgets" 1 "latest", Ok "")
                (or_introl eq_refl)).
  discriminate.
Qed.

Lemma C3_tag_and_push_witness :
  map fst (stage_events "tag" (trace (Build Script play conveyor0 widgets [])))
  = [tag_call "acme/widgets" "main"; tag_call "acme/widgets" "abc123"]
  /\ map fst (stage_events "push" (trace (Build Script play conveyor0 widgets [])))
     = map (push_call conveyor0 "acme/widgets" 1) ["latest"; "main"; "abc123"].
Proof.
  apply (proj1 (C3_tag_and_push Script play) conveyor0 widgets []).
  vm_compute. reflexivity.
Defined.

Lemma C4_fatal_pull_witness :
  outcome (pullTags Script play conveyor0 "acme/widgets" 1 ["main"; "latest"]
             [Fail "unauthorized: authentication required"])
  = Return (Some "unauthorized: authentication required")
  /\ length (trace (pullTags Script play conveyor0 "acme/widgets" 1
                      ["main"; "latest"]
                      [Fail "unauthorized: authentication required"])) = 1
  /\ map fst (trace (pullTags Script play conveyor0 "acme/widgets" 1
                       ["main"; "latest"]
                       [Fail "unauthorized: authentication required"]))
     = map (pull_call conveyor0 "acme/widgets" 1) (firstn 1 ["main"; "latest"]).
Proof.
  apply (C4_fatal_pull_stops Script play conveyor0 "acme/widgets" 1
           ["main"; "latest"] [Fail "unauthorized: authentication required"]
           0 (pull_call conveyor0 "acme/widgets" 1 "main")).
  - reflexivity.
  - vm_compute. reflexivity.
Defined.

Lemma C5_pull_order_witness :
  pull Script play conveyor0 widgets [Fail (miss "main"); Ok ""]
  = mkResult (Return None) []
      [(pull_call conveyor0 "acme/widgets" 1 "main", Fail (miss "main"));
       (pull_call conveyor0 "acme/widgets" 1 "latest", Ok "")].
Proof.
  apply (proj2 (proj2 (C5_pull_order_first_success Script play))
           conveyor0 widgets [Fail (miss "main"); Ok ""] (miss "main")
           [Ok ""] "" []).
  - reflexivity.
  - vm_compute. reflexivity.
  - reflexivity.
Defined.

Lemma C6_build_failure_witness :
  statuses (trace (Build Script play conveyor0 widgets script_build_fails))
  = ["pending"; "error"]
  /\ tag_calls (trace (Build Script play conveyor0 widgets script_build_fails)) = []
  /\ push_calls (trace (Build Script play conveyor0 widgets script_build_fails)) = [].
Proof.
  apply (C6_build_failure Script play conveyor0 widgets script_build_fails
           docker_build "exit status 1").
  - vm_compute. do 5 right. left. reflexivity.
  - reflexivity.
Defined.

Lemma C7_stage_failure_witness :
  outcome (Build Script play conveyor0 widgets script_build_fails)
  = Return (Some "build: exit status 1").
Proof.
  apply (C7_stage_failure_wrapped Script play conveyor0 widgets
           script_build_fails docker_build "exit status 1" "build").
  - vm_compute. do 5 right. left. reflexivity.
  - reflexivity.
  - intros H. discriminate.
Defined.

Lemma C8_updateStatus_witness :
  updateStatus Script play conveyor0 ("acme" +++ "/" +++ "widgets") "abc123"
    "pending" [Fail "401 Bad credentials"]
  = mkResult (Return (Some "401 Bad credentials")) []
      [(CreateStatus "acme" "widgets" "abc123"
          {| State := "pending"; status_Context := "container/docker" |},
        Fail "401 Bad credentials")]
  /\ updateStatus Script play conveyor0 "widgets" "abc123" "pending" []
     = mkResult (Panic "runtime error: index out of range") [] [].
Proof.
  split.
  - apply (proj1 (C8_updateStatus_split Script play) conveyor0 "acme" "widgets"
             "abc123" "pending" [Fail "401 Bad credentials"]).
    reflexivity.
  - apply (proj2 (C8_updateStatus_split Script play) conveyor0 "widgets"
             "abc123" "pending" []).
    reflexivity.
Defined.

(** C9 as it is stated fails: for the name [../x] the key is [x.txt],
    not [logs/../x.txt]. *)
Lemma C9_key_counterexample :
  put_keys (trace (Close Script play
                     (Write_all (fst (Create logs0 "../x")) [[Byte.x68; Byte.x69]])
                     []))
  <> ["logs/" +++ "../x" +++ ".txt"].
Proof.
  vm_compute. discriminate.
Qed.

Lemma C9_log_sink_witness :
  Filepath.Join ["logs"; "build-42" +++ ".txt"] = "logs/" +++ "build-42" +++ ".txt".
Proof.
  apply (proj1 (proj2 (C9_log_sink Script play)) "build-42").
  reflexivity.
Defined.

Lemma C10_deferred_error_witness :
  outcome (Build Script play conveyor0 widgets script_report_fails) = Return None
  /\ exists owner name,
      trace (Build Script play conveyor0 widgets script_report_fails)
      = trace (Build_body Script play conveyor0 widgets script_report_fails)
        ++ [(status_call owner name (Commit widgets) "success",
             fst (play (world (Build_body Script play conveyor0 widgets
                                 script_report_fails))
                    (status_call owner name (Commit widgets) "success")))].
Proof.
  apply (proj2 (C10_deferred_error_discarded Script play) conveyor0 widgets
           script_report_fails).
  vm_compute. reflexivity.
Defined.

(** ** The client without a token *)

Section NullClient.

Variable World : Type.
Variable respond : World -> Call -> Reply * World.




End NullClient.

(** ** The further properties on concrete runs *)

Lemma X5_Build_fail_fast_witness :
  (length (trace (Build Script play conveyor0 widgets script_build_fails)) = 7
   /\ exists rep,
       nth_error (trace (Build Script play conveyor0 widgets script_build_fails)) 6
       = Some (CreateStatus (fst (owner_name (Repository widgets)))
                 (snd (owner_name (Repository widgets))) (Commit widgets)
                 {| State := "error"; status_Context := "container/docker" |},
               rep))
  \/ (length (trace (Build Script play conveyor0 widgets script_build_fails)) = 6
      /\ exists t,
          (t = "success" \/ t = "error")
          /\ docker_build
             = CreateStatus (fst (owner_name (Repository widgets)))
                 (snd (owner_name (Repository widgets))) (Commit widgets)
                 {| State := t; status_Context := "container/docker" |})
  \/ (length (trace (Build Script play conveyor0 widgets script_build_fails)) = 6
      /\ contains "/" (Repository widgets) = false
      /\ exists msg,
          outcome (Build Script play conveyor0 widgets script_build_fails)
          = Panic msg).
Proof.
  apply (X5_Build_fail_fast Script play conveyor0 widgets script_build_fails
           5 docker_build "exit status 1").
  - vm_compute. reflexivity.
  - intros H. discriminate.
Defined.

Lemma X6_Build_tempdir_failure_witness :
  outcome (Build Script play conveyor0 widgets script_tempdir_fails)
  = Return (Some "tempdir: no space left on device")
  /\ statuses (trace (Build Script play conveyor0 widgets script_tempdir_fails))
     = ["error"]
  /\ length (trace (Build Script play conveyor0 widgets script_tempdir_fails)) = 2.
Proof.
  apply (proj1 (X6_Build_tempdir_and_status_failures Script play conveyor0
                  widgets script_tempdir_fails eq_refl)
           (TempDir (BuildDir conveyor0) (Commit widgets))
           "no space left on device").
  reflexivity.
Defined.

Lemma X7_Build_malformed_repository_witness :
  outcome (Build Script play conveyor0 widgets_no_slash [])
  = Panic "runtime error: index out of range"
  /\ map fst (trace (Build Script play conveyor0 widgets_no_slash []))
     = [TempDir (BuildDir conveyor0) (Commit widgets_no_slash)]
  /\ statuses (trace (Build Script play conveyor0 widgets_no_slash [])) = [].
Proof.
  apply (X7_Build_malformed_repository_panics Script play conveyor0
           widgets_no_slash []).
  reflexivity.
Defined.

Lemma X8_Build_push_witness :
  exists o1 o2 o3 o4,
    stage_events "build" (trace (Build Script play conveyor0 widgets []))
    ++ stage_events "tag" (trace (Build Script play conveyor0 widgets []))
    = [(Run (docker_build_cmd widgets
               (workdir (trace (Build Script play conveyor0 widgets [])))),
        Ok o1);
       (InspectImage (Repository widgets), Ok o2);
       (tag_call (Repository widgets) (Branch widgets), Ok o3);
       (tag_call (Repository widgets) (Commit widgets), Ok o4)].
Proof.
  apply (X8_Build_push_after_build_and_tag Script play conveyor0 widgets []).
  vm_compute. discriminate.
Defined.

Lemma X11_Create_key_witness : "build-42" = "build-42".
Proof.
  apply (X11_Create_key_injective logs0 logs0 "build-42" "build-42");
    reflexivity.
Defined.

Lemma X12_Build_all_succeed_witness :
  outcome (Build unit always_ok conveyor0 widgets tt) = Return None
  /\ map fst (trace (Build unit always_ok conveyor0 widgets tt))
     = [TempDir (BuildDir conveyor0) (Commit widgets);
        status_call (fst (owner_name (Repository widgets)))
          (snd (owner_name (Repository widgets))) (Commit widgets) "pending";
        Run (clone_cmd conveyor0 widgets
               (workdir (trace (Build unit always_ok conveyor0 widgets tt))));
        Run (checkout_cmd widgets
               (workdir (trace (Build unit always_ok conveyor0 widgets tt))));
        pull_call conveyor0 (Repository widgets) (OutputStream widgets)
          (Branch widgets);
        Run (docker_build_cmd widgets
               (workdir (trace (Build unit always_ok conveyor0 widgets tt))));
        InspectImage (Repository widgets);
        tag_call (Repository widgets) (Branch widgets);
        tag_call (Repository widgets) (Commit widgets);
        push_call conveyor0 (Repository widgets) (OutputStream widgets) "latest";
        push_call conveyor0 (Repository widgets) (OutputStream widgets)
          (Branch widgets);
        push_call conveyor0 (Repository widgets) (OutputStream widgets)
          (Commit widgets);
        status_call (fst (owner_name (Repository widgets)))
          (snd (owner_name (Repository widgets))) (Commit widgets) "success"].
Proof.
  apply (X12_Build_all_succeed unit always_ok conveyor0 widgets tt).
  - intros w0 call. exists "", tt. reflexivity.
  - reflexivity.
Defined.
